(** * passwordless-client-js: the transcoder and the two ceremonies

    A shallow embedding of [src/passwordless.ts].  JavaScript strings are
    sequences of UTF-16 code units and typed arrays are lists of integers
    in [0, 256).  The platform functions the source calls ([btoa], [atob],
    [Uint8Array.from], [JSON.stringify], the two regular-expression
    replacements) are modelled after their standards.  The asynchronous
    methods of [Client] are computations in a state-and-exception monad:
    the state holds the configuration of the client and the log of every
    call made to the host ([fetch], [navigator.credentials], [console]);
    the host answers through a [Platform] record. *)

From Stdlib Require Import ZArith Lia String Ascii QArith_base DecimalString.
From stdpp Require Import prelude.

Local Open Scope Z_scope.
Set Warnings "-register-all".

(** ** JavaScript strings *)

(** A string is the list of its UTF-16 code units. *)
Abbreviation jsstring := (list Z).

(** A string literal of the source, as code units. *)
Definition lit (s : string) : jsstring :=
  map (fun a => Z.of_N (N_of_ascii a)) (list_ascii_of_string s).

(** ** Numbers and the integer conversions of ECMAScript *)

(** The numbers the model distinguishes: integral values, finite values
    given as a fraction (every finite double is one), and the three
    non-finite ones. *)
Inductive number :=
| NInt (z : Z)
| NFraction (q : Q)
| NaN
| PosInfinity
| NegInfinity.

(** The integral part of a finite number: the fraction is dropped, which
    rounds toward zero. *)
Definition truncate (q : Q) : Z := Z.quot (Qnum q) (Zpos (Qden q)).

(** ToUint8 and ToUint16: non-finite values become 0; a finite value is
    truncated toward zero and then taken modulo 2^8, respectively
    2^16. *)
Definition ToUint8 (n : number) : Z :=
  match n with
  | NInt z => z mod 256
  | NFraction q => truncate q mod 256
  | _ => 0
  end.

Definition ToUint16 (n : number) : Z :=
  match n with
  | NInt z => z mod 65536
  | NFraction q => truncate q mod 65536
  | _ => 0
  end.

Definition is_finite (n : number) : bool :=
  match n with
  | NInt _ | NFraction _ => true
  | _ => false
  end.

(** [s.charCodeAt(i)]: NaN outside the string. *)
Definition charCodeAt (s : jsstring) (i : nat) : number :=
  match s !! i with
  | Some c => NInt c
  | None => NaN
  end.

(** [String.fromCharCode(n)]: the one-unit string of ToUint16(n). *)
Definition String_fromCharCode (n : number) : jsstring := [ToUint16 n].

(** [a[i]] on a Uint8Array, converted to a number: an index outside the
    array reads [undefined], whose numeric value is NaN. *)
Definition typed_get (a : list Z) (i : nat) : number :=
  match a !! i with
  | Some b => NInt b
  | None => NaN
  end.

(** [a[i] = n] on a Uint8Array: the stored byte is ToUint8(n); a store
    outside the array is ignored. *)
Definition typed_set (a : list Z) (i : nat) (n : number) : list Z :=
  <[i := ToUint8 n]> a.

(** [new Uint8Array(len)]: [len] zero bytes. *)
Definition new_Uint8Array (len : nat) : list Z := replicate len 0.

(** [for (let i = start; i < start + count; i++) body]. *)
Fixpoint for_loop {S : Type} (count : nat) (i : nat)
    (body : nat -> S -> S) (s : S) : S :=
  match count with
  | O => s
  | Datatypes.S k => for_loop k (Datatypes.S i) body (body i s)
  end.

(** ** Regular-expression replacements used by the source *)

(** [s.replace(/c/g, d)] for a one-character pattern [c] and a
    one-character replacement [d]. *)
Definition replace_all (c d : Z) (s : jsstring) : jsstring :=
  map (fun x => if x =? c then d else x) s.

(** Dropping a leading run of [c]. *)
Fixpoint drop_leading (c : Z) (s : jsstring) : jsstring :=
  match s with
  | x :: r => if x =? c then drop_leading c r else s
  | [] => []
  end.

(** [s.replace(/c*$/g, '')]: the pattern is anchored at the end of the
    input, so exactly the trailing run of [c] is removed. *)
Definition strip_trailing (c : Z) (s : jsstring) : jsstring :=
  rev (drop_leading c (rev s)).

(** Code units of the characters the source names. *)
Definition ch_plus : Z := 43.
Definition ch_minus : Z := 45.
Definition ch_slash : Z := 47.
Definition ch_eq : Z := 61.
Definition ch_underscore : Z := 95.

(** ** Base64 of the platform: [btoa] and [atob] *)

Module Base64.

(** The alphabet of RFC 4648, section 4: the character of a 6-bit
    value. *)
Definition char_of (i : Z) : Z :=
  if i <? 26 then 65 + i
  else if i <? 52 then 97 + (i - 26)
  else if i <? 62 then 48 + (i - 52)
  else if i =? 62 then 43
  else 47.

(** The 6-bit value of a character, if it is in the alphabet. *)
Definition index_of (c : Z) : option Z :=
  if (65 <=? c) && (c <=? 90) then Some (c - 65)
  else if (97 <=? c) && (c <=? 122) then Some (c - 71)
  else if (48 <=? c) && (c <=? 57) then Some (c + 4)
  else if c =? 43 then Some 62
  else if c =? 47 then Some 63
  else None.

(** Encoding: each group of three bytes is a 24-bit number written as
    four 6-bit values; a final group of one byte is padded with four
    zero bits and [==], one of two bytes with two zero bits and [=]. *)
Fixpoint encode (bs : list Z) : jsstring :=
  match bs with
  | [] => []
  | [a] =>
      let n := a * 16 in
      [char_of (n / 64); char_of (n mod 64); ch_eq; ch_eq]
  | [a; b] =>
      let n := (a * 256 + b) * 4 in
      [char_of (n / 4096); char_of (n / 64 mod 64); char_of (n mod 64);
       ch_eq]
  | a :: b :: c :: rest =>
      let n := a * 65536 + b * 256 + c in
      char_of (n / 262144) :: char_of (n / 4096 mod 64)
        :: char_of (n / 64 mod 64) :: char_of (n mod 64) :: encode rest
  end.

(** Decoding a sequence of 6-bit values (forgiving-base64 decode of the
    HTML standard, steps 8 to 10): four values give three bytes; of a
    final group of three values the last two bits are discarded, of a
    final group of two the last four. *)
Fixpoint decode_values (vs : list Z) : list Z :=
  match vs with
  | s0 :: s1 :: s2 :: s3 :: rest =>
      let n := ((s0 * 64 + s1) * 64 + s2) * 64 + s3 in
      n / 65536 :: n / 256 mod 256 :: n mod 256 :: decode_values rest
  | [s0; s1; s2] =>
      let n := ((s0 * 64 + s1) * 64 + s2) / 4 in
      [n / 256; n mod 256]
  | [s0; s1] =>
      let n := (s0 * 64 + s1) / 16 in
      [n]
  | _ => []
  end.

(** ASCII whitespace: tab, line feed, form feed, carriage return,
    space. *)
Definition is_whitespace (c : Z) : bool :=
  (c =? 9) || (c =? 10) || (c =? 12) || (c =? 13) || (c =? 32).

(** Removing one or two [=] at the end of the data. *)
Definition strip_padding (s : jsstring) : jsstring :=
  match rev s with
  | x :: y :: r =>
      if x =? ch_eq then
        if y =? ch_eq then rev r else rev (y :: r)
      else s
  | [x] => if x =? ch_eq then [] else s
  | [] => s
  end.

(** The forgiving-base64 decode of the HTML standard: [None] is its
    failure. *)
Definition forgiving_decode (data : jsstring) : option (list Z) :=
  let data := filter (fun c => is_whitespace c = false) data in
  let data :=
    if (Z.of_nat (length data) mod 4 =? 0) then strip_padding data
    else data in
  if (Z.of_nat (length data) mod 4 =? 1) then None
  else mapM index_of data ≫= fun vs => Some (decode_values vs).

(** A character is in the alphabet. *)
Definition in_alphabet (c : Z) : Prop := is_Some (index_of c).

(** The six-bit values of an encoding, before the alphabet is applied
    and without padding. *)
Fixpoint encode_values (bs : list Z) : list Z :=
  match bs with
  | [] => []
  | [a] => let n := a * 16 in [n / 64; n mod 64]
  | [a; b] => let n := (a * 256 + b) * 4 in [n / 4096; n / 64 mod 64; n mod 64]
  | a :: b :: c :: rest =>
      let n := a * 65536 + b * 256 + c in
      n / 262144 :: n / 4096 mod 64 :: n / 64 mod 64 :: n mod 64
        :: encode_values rest
  end.

(** Number of [=] that end an encoding. *)
Fixpoint padding (bs : list Z) : nat :=
  match bs with
  | [] => 0
  | [_] => 2
  | [_; _] => 1
  | _ :: _ :: _ :: rest => padding rest
  end.

(** The URL-safe alphabet of RFC 4648, section 5: [-] for 62 and [_]
    for 63. *)
Definition url_char_of (i : Z) : Z :=
  if i <? 26 then 65 + i
  else if i <? 52 then 97 + (i - 26)
  else if i <? 62 then 48 + (i - 52)
  else if i =? 62 then 45
  else 95.

(** The base64url encoding of RFC 4648, section 5, without padding: the
    reference the encoder of the client is compared with. *)
Definition encode_url (bs : list Z) : jsstring :=
  map url_char_of (encode_values bs).

End Base64.

(** [btoa(s)]: fails (InvalidCharacterError) on a code unit above 255,
    otherwise the base64 of the code units taken as bytes. *)
Definition btoa (s : jsstring) : option jsstring :=
  if forallb (fun c => c <=? 255) s then Some (Base64.encode s) else None.

(** [atob(s)]: fails (InvalidCharacterError) when the forgiving decode
    fails, otherwise the string whose code units are the bytes. *)
Definition atob (s : jsstring) : option jsstring :=
  Base64.forgiving_decode s.

(** ** Values *)

(** An element of a plain array handed to the encoder.  Objects, whose
    numeric conversion runs user code, are left out. *)
Inductive element :=
| EUndefined
| ENull
| EBoolean (b : bool)
| ENumber (n : number)
| EString (s : jsstring)
| ESymbol
| EBigInt (z : Z).

(** The values that flow through the client: what the [unknown]
    parameters of the two coercions can receive, the fields of the
    ceremony options before and after transcoding, and JSON trees. *)
Inductive value :=
| VUndefined
| VNull
| VBoolean (b : bool)
| VNumber (n : number)
| VString (s : jsstring)
| VArray (elems : list element)
| VArrayBuffer (bytes : list Z)
| VUint8Array (bytes : list Z)
| VObject (fields : list (string * value)).

(** Faults raised by the engine itself; the text of their messages is
    the engine's. *)
Inductive EngineFault :=
| ReadPropertyOfNull (property : string)
| SymbolToNumber
| BigIntToNumber
| SerializeBigInt
| InvalidCharacter.

(** *** Serialization *)

(** What [JSON.stringify] writes for an element of an array:
    [undefined], a Symbol and a number that is not finite are written
    as [null]; a BigInt cannot be serialized. *)
Definition serialize_element (e : element) : EngineFault + element :=
  match e with
  | EUndefined => inr ENull
  | ESymbol => inr ENull
  | ENumber n => inr (if is_finite n then ENumber n else ENull)
  | EBigInt _ => inl SerializeBigInt
  | ENull => inr ENull
  | EBoolean b => inr (EBoolean b)
  | EString s => inr (EString s)
  end.

Fixpoint serialize_elements (elems : list element)
    : EngineFault + list element :=
  match elems with
  | [] => inr []
  | e :: r =>
      match serialize_element e with
      | inl f => inl f
      | inr j =>
          match serialize_elements r with
          | inl f => inl f
          | inr js => inr (j :: js)
          end
      end
  end.

(** The own properties of a typed array: its indices, in decimal. *)
Fixpoint indexed (i : nat) (bytes : list Z) : list (string * value) :=
  match bytes with
  | [] => []
  | b :: r =>
      (NilEmpty.string_of_uint (Nat.to_uint i), VNumber (NInt b))
        :: indexed (S i) r
  end.

(** The tree [JSON.stringify] writes for a value, [None] where it writes
    nothing ([undefined]).  The text is identified with the tree it
    denotes.  A property whose value is [undefined] is left out; a number
    that is not finite is written as [null]; an [ArrayBuffer] has no
    properties of its own and is written as the empty object; a typed
    array is written as the object of its indices; the first BigInt
    met, in order, stops the serialization. *)
Fixpoint serialize (v : value) : EngineFault + option value :=
  match v with
  | VUndefined => inr None
  | VNull => inr (Some VNull)
  | VBoolean b => inr (Some (VBoolean b))
  | VNumber n => inr (Some (if is_finite n then VNumber n else VNull))
  | VString s => inr (Some (VString s))
  | VArray elems =>
      match serialize_elements elems with
      | inl f => inl f
      | inr js => inr (Some (VArray js))
      end
  | VArrayBuffer _ => inr (Some (VObject []))
  | VUint8Array bytes => inr (Some (VObject (indexed 0 bytes)))
  | VObject fields =>
      match
        (fix props (fs : list (string * value))
           : EngineFault + list (string * value) :=
           match fs with
           | [] => inr []
           | (k, x) :: r =>
               match serialize x with
               | inl f => inl f
               | inr None => props r
               | inr (Some j) =>
                   match props r with
                   | inl f => inl f
                   | inr js => inr ((k, j) :: js)
                   end
               end
           end) fields
      with
      | inl f => inl f
      | inr js => inr (Some (VObject js))
      end
  end.

(** [v[k]] on an object: [undefined] when the property is missing. *)
Fixpoint lookup_field (k : string) (fields : list (string * value)) : value :=
  match fields with
  | [] => VUndefined
  | (k', x) :: r => if String.eqb k k' then x else lookup_field k r
  end.

Definition get (v : value) (k : string) : value :=
  match v with
  | VObject fields => lookup_field k fields
  | _ => VUndefined
  end.

(** ** Errors *)

Inductive JsError :=
| Error (message : jsstring)
| TypeError (message : jsstring)
| DOMException (name : string) (message : jsstring).

(** [error.message]. *)
Definition message (e : JsError) : jsstring :=
  match e with
  | Error m => m
  | TypeError m => m
  | DOMException _ m => m
  end.

(** ** The data of the ceremonies *)

Record Config := {
  apiUrl : jsstring;
  apiKey : jsstring;
  origin : jsstring;
  rpid : jsstring;
}.

Record Request := {
  url : jsstring;
  method : jsstring;
  headers : list (string * jsstring);
  body : value;
}.

(** A credential descriptor of an exclude or allow list. *)
Record CredentialDescriptor := {
  cred_id : value;
  cred_other : value;
}.

(** The options of [navigator.credentials.create]. *)
Record CreationOptions := {
  co_challenge : value;
  co_user_id : value;
  co_excludeCredentials : option (list CredentialDescriptor);
  co_other : value;
}.

(** The options of [navigator.credentials.get]. *)
Record RequestOptions := {
  ro_challenge : value;
  ro_allowCredentials : option (list CredentialDescriptor);
  ro_other : value;
}.

Record RegisterBeginResponse := {
  rb_sessionId : jsstring;
  rb_data : CreationOptions;
}.

Record SigninBeginResponse := {
  sb_sessionId : jsstring;
  sb_data : RequestOptions;
}.

Record SigninCompleteResponse := {
  sc_data : jsstring;
}.

(** The payload of a platform credential: an attestation after
    [create], an assertion after [get]. *)
Inductive AuthenticatorResponse :=
| Attestation (clientDataJSON attestationObject : list Z)
| Assertion (clientDataJSON authenticatorData signature : list Z).

Record PublicKeyCredential := {
  id : jsstring;
  rawId : list Z;
  type : jsstring;
  response : AuthenticatorResponse;
  getClientExtensionResults : value;
}.

(** Reading a field through the cast of the source: a field the payload
    does not have reads [undefined]. *)
Definition clientDataJSON (r : AuthenticatorResponse) : option (list Z) :=
  match r with
  | Attestation c _ => Some c
  | Assertion c _ _ => Some c
  end.

Definition attestationObject (r : AuthenticatorResponse) : option (list Z) :=
  match r with
  | Attestation _ a => Some a
  | Assertion _ _ _ => None
  end.

Definition authenticatorData (r : AuthenticatorResponse) : option (list Z) :=
  match r with
  | Attestation _ _ => None
  | Assertion _ a _ => Some a
  end.

Definition signature (r : AuthenticatorResponse) : option (list Z) :=
  match r with
  | Attestation _ _ => None
  | Assertion _ _ s => Some s
  end.

(** [new Uint8Array(buffer)]: a view of the bytes of the buffer; of
    [undefined], the empty array. *)
Definition Uint8Array_of_buffer (b : option (list Z)) : list Z :=
  default [] b.

(** The selector of a sign-in: [{userId}] or [{alias}]. *)
Inductive SigninMethod :=
| ByUserId (userId : jsstring)
| ByAlias (alias : jsstring).

(** A response of [fetch] whose body parses, by the annotation of the
    calling method, to a [T]; [json] may reject. *)
Record Response (T : Type) := {
  json : JsError + T;
}.
Arguments json {T} _.

(** What [window.PublicKeyCredential] is bound to. *)
Inductive Binding :=
| Unbound
| BoundToFunction
| BoundToOther.

Definition is_undefined (b : Binding) : bool :=
  match b with
  | Unbound => true
  | _ => false
  end.

(** [typeof b === 'function']. *)
Definition typeof_is_function (b : Binding) : bool :=
  match b with
  | BoundToFunction => true
  | _ => false
  end.

(** The host: the browser and, behind [fetch], the backend. *)
Record Platform := {
  window_PublicKeyCredential : Binding;
  register_begin : Request -> JsError + Response RegisterBeginResponse;
  register_complete : Request -> JsError + Response value;
  signin_begin : Request -> JsError + Response SigninBeginResponse;
  signin_complete : Request -> JsError + Response SigninCompleteResponse;
  credentials_create : CreationOptions -> JsError + option PublicKeyCredential;
  credentials_get : RequestOptions -> JsError + option PublicKeyCredential;
  isUserVerifyingPlatformAuthenticatorAvailable : JsError + bool;
  engine_message : EngineFault -> jsstring;
  StringToNumber : jsstring -> number;
}.

(** What the client does to the host, in order. *)
Inductive Event :=
| Fetch (r : Request)
| CredentialsCreate (o : CreationOptions)
| CredentialsGet (o : RequestOptions)
| ConsoleError (e : JsError)
| ConsoleWarn (text : jsstring) (v : value).

(** The state a method runs in: the [config] object of the client, which
    the constructor fills and no one else holds, and the calls made so
    far. *)
Record State := {
  config : Config;
  events : list Event;
}.

(** ** The monad of the methods *)

Definition M (A : Type) : Type := State -> (JsError + A) * State.

Definition ret {A} (a : A) : M A := fun st => (inr a, st).

Definition bind {A B} (m : M A) (k : A -> M B) : M B :=
  fun st =>
    match m st with
    | (inr a, st') => k a st'
    | (inl e, st') => (inl e, st')
    end.

Definition throw {A} (e : JsError) : M A := fun st => (inl e, st).

(** [try { m } catch (error) { handler }]. *)
Definition try_catch {A} (m : M A) (handler : JsError -> M A) : M A :=
  fun st =>
    match m st with
    | (inr a, st') => (inr a, st')
    | (inl e, st') => handler e st'
    end.

Definition emit (ev : Event) : M unit :=
  fun st => (inr tt, {| config := config st; events := events st ++ [ev] |}).

(** [this.config]. *)
Definition this_config : M Config := fun st => (inr (config st), st).

Definition of_result {A} (r : JsError + A) : M A :=
  match r with
  | inl e => throw e
  | inr a => ret a
  end.

Notation "'let*' x ':=' m 'in' k" := (bind m (fun x => k))
  (at level 10, x pattern, m at level 100, k at level 200).

(** [for (const x of l) f(x)], keeping the results. *)
Fixpoint forEach {A B} (f : A -> M B) (l : list A) : M (list B) :=
  match l with
  | [] => ret []
  | x :: r =>
      let* y := f x in
      let* ys := forEach f r in
      ret (y :: ys)
  end.

(** A property of an object literal. *)
Definition prop (k : string) (v : value) : string * value := (k, v).

Definition header (k : string) (v : jsstring) : string * jsstring := (k, v).

(** ** The client *)

Section Client.

Variable P : Platform.

(** *** Calls to the host *)

Definition engine_error (f : EngineFault) : JsError :=
  match f with
  | InvalidCharacter =>
      DOMException "InvalidCharacterError" (engine_message P f)
  | _ => TypeError (engine_message P f)
  end.

Definition console_error (e : JsError) : M unit := emit (ConsoleError e).

Definition console_warn (text : jsstring) (v : value) : M unit :=
  emit (ConsoleWarn text v).

(** [JSON.stringify(v)]: the text of [v], or the TypeError of a BigInt
    inside it. *)
Definition JSON_stringify (v : value) : M value :=
  match serialize v with
  | inl f => throw (engine_error f)
  | inr (Some text) => ret text
  | inr None => ret VUndefined
  end.

(** [fetch(url, init)], answered by the endpoint [backend]. *)
Definition fetch {T} (backend : Request -> JsError + Response T)
    (r : Request) : M (Response T) :=
  let* _ := emit (Fetch r) in
  of_result (backend r).

Definition navigator_credentials_create (o : CreationOptions)
    : M (option PublicKeyCredential) :=
  let* _ := emit (CredentialsCreate o) in
  of_result (credentials_create P o).

Definition navigator_credentials_get (o : RequestOptions)
    : M (option PublicKeyCredential) :=
  let* _ := emit (CredentialsGet o) in
  of_result (credentials_get P o).

(** ToNumber on an array element. *)
Definition ToNumber (e : element) : EngineFault + number :=
  match e with
  | EUndefined => inr NaN
  | ENull => inr (NInt 0)
  | EBoolean b => inr (NInt (if b then 1 else 0))
  | ENumber n => inr n
  | EString s => inr (StringToNumber P s)
  | ESymbol => inl SymbolToNumber
  | EBigInt _ => inl BigIntToNumber
  end.

(** [Uint8Array.from(array)]: every element is converted by ToNumber,
    then stored as ToUint8 of it. *)
Definition Uint8Array_from (elems : list element) : M (list Z) :=
  forEach
    (fun e =>
       match ToNumber e with
       | inl f => throw (engine_error f)
       | inr n => ret (ToUint8 n)
       end)
    elems.

(** *** The exported capability check *)

(** [window.PublicKeyCredential !== undefined &&
    typeof window.PublicKeyCredential === 'function']. *)
Definition isBrowserSupported : bool :=
  negb (is_undefined (window_PublicKeyCredential P))
  && typeof_is_function (window_PublicKeyCredential P).


(** *** Private helpers of [Client] *)

Definition assertBrowserSupported : M unit :=
  if negb isBrowserSupported then
    throw (Error (lit
      "WebAuthn and PublicKeyCredentials are not supported on this browser/device"))
  else ret tt.

Definition createHeaders : M (list (string * jsstring)) :=
  let* c := this_config in
  ret [header "ApiKey" (apiKey c);
       header "Content-Type" (lit "application/json")].

Definition base64ToBase64Url (base64 : jsstring) : jsstring :=
  strip_trailing ch_eq
    (replace_all ch_slash ch_underscore
       (replace_all ch_plus ch_minus base64)).

Definition base64UrlToBase64 (base64Url : jsstring) : jsstring :=
  replace_all ch_underscore ch_slash
    (replace_all ch_minus ch_plus base64Url).

Definition coerceToArrayBuffer (v : value) : M (list Z) :=
  match v with
  | VString s =>
      let base64 := base64UrlToBase64 s in
      match atob base64 with
      | None => throw (engine_error InvalidCharacter)
      | Some string =>
          let bytes := new_Uint8Array (length string) in
          ret (for_loop (length string) 0
                 (fun i bytes => typed_set bytes i (charCodeAt string i))
                 bytes)
      end
  | _ =>
      let* _ := console_warn (lit "Could not coerce to string:") v in
      throw (TypeError (lit "Could not coerce to ArrayBuffer"))
  end.

Definition coerceToBase64Url (v : value) : M jsstring :=
  let* uint8Array :=
    match v with
    | VArray elems => Uint8Array_from elems
    | VArrayBuffer bytes => ret bytes
    | VUint8Array bytes => ret bytes
    | _ =>
        let* _ := console_warn (lit "Could not coerce to string:") v in
        throw (Error (lit "Could not coerce to string"))
    end in
  let string :=
    for_loop (length uint8Array) 0
      (fun i string => string ++ String_fromCharCode (typed_get uint8Array i))
      [] in
  match btoa string with
  | None => throw (engine_error InvalidCharacter)
  | Some base64String => ret (base64ToBase64Url base64String)
  end.

(** *** Registration *)

Definition registerBegin (token : jsstring) : M RegisterBeginResponse :=
  let* c := this_config in
  let* hs := createHeaders in
  let* text :=
    JSON_stringify (VObject [
      prop "token" (VString token);
      prop "RPID" (VString (rpid c));
      prop "Origin" (VString (origin c))]) in
  let* response :=
    fetch (register_begin P)
      {| url := apiUrl c ++ lit "/register/begin";
         method := lit "POST";
         headers := hs;
         body := text |} in
  of_result (json response).

Definition registerComplete (credential : PublicKeyCredential)
    (sessionId credentialNickname : jsstring) : M value :=
  let attestationResponse := response credential in
  let* c := this_config in
  let* hs := createHeaders in
  let* rawId64 := coerceToBase64Url (VUint8Array (rawId credential)) in
  let* attestationObject64 :=
    coerceToBase64Url (VUint8Array
      (Uint8Array_of_buffer (attestationObject attestationResponse))) in
  let* clientDataJSON64 :=
    coerceToBase64Url (VUint8Array
      (Uint8Array_of_buffer (clientDataJSON attestationResponse))) in
  let* text :=
    JSON_stringify (VObject [
      prop "sessionId" (VString sessionId);
      prop "response" (VObject [
        prop "id" (VString (id credential));
        prop "rawId" (VString rawId64);
        prop "type" (VString (type credential));
        prop "extensions" (getClientExtensionResults credential);
        prop "response" (VObject [
          prop "AttestationObject" (VString attestationObject64);
          prop "clientDataJson" (VString clientDataJSON64)])]);
      prop "nickname" (VString credentialNickname);
      prop "RPID" (VString (rpid c));
      prop "Origin" (VString (origin c))]) in
  let* response :=
    fetch (register_complete P)
      {| url := apiUrl c ++ lit "/register/complete";
         method := lit "POST";
         headers := hs;
         body := text |} in
  of_result (json response).

(** [cred.id = this.coerceToArrayBuffer(cred.id)]. *)
Definition transcode_descriptor (cred : CredentialDescriptor)
    : M CredentialDescriptor :=
  let* i := coerceToArrayBuffer (cred_id cred) in
  ret {| cred_id := VUint8Array i; cred_other := cred_other cred |}.

(** [list?.forEach(cred => ...)]: nothing on a missing list. *)
Definition transcode_descriptors (l : option (list CredentialDescriptor))
    : M (option (list CredentialDescriptor)) :=
  match l with
  | None => ret None
  | Some creds =>
      let* creds' := forEach transcode_descriptor creds in
      ret (Some creds')
  end.

(** The [try] block of [register]. *)
Definition register_try (token credentialNickname : jsstring) : M value :=
  let* registration := registerBegin token in
  let data := rb_data registration in
  let* challenge := coerceToArrayBuffer (co_challenge data) in
  let* user_id := coerceToArrayBuffer (co_user_id data) in
  let* excludeCredentials :=
    transcode_descriptors (co_excludeCredentials data) in
  let* credential :=
    navigator_credentials_create
      {| co_challenge := VUint8Array challenge;
         co_user_id := VUint8Array user_id;
         co_excludeCredentials := excludeCredentials;
         co_other := co_other data |} in
  match credential with
  | None =>
      throw (Error (lit
        "Failed to create credential (navigator.credentials.create)"))
  | Some credential =>
      let* _ :=
        registerComplete credential (rb_sessionId registration)
          credentialNickname in
      ret VUndefined
  end.

Definition register (token credentialNickname : jsstring) : M value :=
  let* _ := assertBrowserSupported in
  try_catch
    (register_try token credentialNickname)
    (fun error =>
       let* _ := console_error error in
       throw (Error (lit "Passwordless register failed: " ++ message error))).

(** *** Sign-in *)

Definition signinBegin (signinMethod : SigninMethod)
    : M SigninBeginResponse :=
  let* c := this_config in
  let* hs := createHeaders in
  let* text :=
    JSON_stringify (VObject [
      prop "userId"
        match signinMethod with
        | ByUserId userId => VString userId
        | ByAlias _ => VUndefined
        end;
      prop "alias"
        match signinMethod with
        | ByAlias alias => VString alias
        | ByUserId _ => VUndefined
        end;
      prop "RPID" (VString (rpid c));
      prop "Origin" (VString (origin c))]) in
  let* response :=
    fetch (signin_begin P)
      {| url := apiUrl c ++ lit "/signin/begin";
         method := lit "POST";
         headers := hs;
         body := text |} in
  of_result (json response).

Definition signinComplete (credential : option PublicKeyCredential)
    (sessionId : jsstring) : M SigninCompleteResponse :=
  match credential with
  | None => throw (engine_error (ReadPropertyOfNull "response"))
  | Some credential =>
      let assertionResponse := response credential in
      let* c := this_config in
      let* hs := createHeaders in
      let* rawId64 := coerceToBase64Url (VUint8Array (rawId credential)) in
      let* authenticatorData64 :=
        coerceToBase64Url (VUint8Array
          (Uint8Array_of_buffer (authenticatorData assertionResponse))) in
      let* clientDataJSON64 :=
        coerceToBase64Url (VUint8Array
          (Uint8Array_of_buffer (clientDataJSON assertionResponse))) in
      let* signature64 :=
        coerceToBase64Url (VUint8Array
          (Uint8Array_of_buffer (signature assertionResponse))) in
      let* text :=
        JSON_stringify (VObject [
          prop "sessionId" (VString sessionId);
          prop "response" (VObject [
            prop "id" (VString (id credential));
            prop "rawId" (VString rawId64);
            prop "type" (VString (type credential));
            prop "extensions" (getClientExtensionResults credential);
            prop "response" (VObject [
              prop "authenticatorData" (VString authenticatorData64);
              prop "clientDataJson" (VString clientDataJSON64);
              prop "signature" (VString signature64)])]);
          prop "RPID" (VString (rpid c));
          prop "Origin" (VString (origin c))]) in
      let* response :=
        fetch (signin_complete P)
          {| url := apiUrl c ++ lit "/signin/complete";
             method := lit "POST";
             headers := hs;
             body := text |} in
      of_result (json response)
  end.

(** The [try] block of [signin]. *)
Definition signin_try (signinMethod : SigninMethod) : M jsstring :=
  let* signin := signinBegin signinMethod in
  let data := sb_data signin in
  let* challenge := coerceToArrayBuffer (ro_challenge data) in
  let* allowCredentials :=
    transcode_descriptors (ro_allowCredentials data) in
  let* credential :=
    navigator_credentials_get
      {| ro_challenge := VUint8Array challenge;
         ro_allowCredentials := allowCredentials;
         ro_other := ro_other data |} in
  let* response := signinComplete credential (sb_sessionId signin) in
  ret (sc_data response).

Definition signin (signinMethod : SigninMethod) : M jsstring :=
  let* _ := assertBrowserSupported in
  try_catch
    (signin_try signinMethod)
    (fun error =>
       let* _ := console_error error in
       throw (Error (lit "Passwordless signin failed: " ++ message error))).

Definition signinWithId (userId : jsstring) : M jsstring :=
  signin (ByUserId userId).

Definition signinWithAlias (alias : jsstring) : M jsstring :=
  signin (ByAlias alias).

End Client.

(** * Vocabulary of the properties *)

Definition is_byte (b : Z) : Prop := 0 <= b < 256.

Definition is_sextet (v : Z) : Prop := 0 <= v < 64.

(** Running a method from a state. *)
Definition run {A} (m : M A) (st : State) : (JsError + A) * State := m st.

(** A state whose log is extended by [evs]. *)
Definition log (st : State) (evs : list Event) : State :=
  {| config := config st; events := events st ++ evs |}.

(** The state a method of a client configured with [c] starts in. *)
Definition initial (c : Config) : State := {| config := c; events := [] |}.

Definition is_warn (ev : Event) : Prop :=
  match ev with
  | ConsoleWarn _ _ => True
  | _ => False
  end.

(** A computation that leaves the configuration alone and at most writes
    warnings to the console. *)
Definition quiet {A} (m : M A) : Prop :=
  forall st, exists r ws, m st = (r, log st ws) /\ Forall is_warn ws.

(** The network requests of a log, in order. *)
Fixpoint requests (evs : list Event) : list Request :=
  match evs with
  | [] => []
  | Fetch q :: r => q :: requests r
  | _ :: r => requests r
  end.

(** The options [navigator.credentials.create] was called with. *)
Fixpoint creations (evs : list Event) : list CreationOptions :=
  match evs with
  | [] => []
  | CredentialsCreate o :: r => o :: creations r
  | _ :: r => creations r
  end.

(** The options [navigator.credentials.get] was called with. *)
Fixpoint assertions (evs : list Event) : list RequestOptions :=
  match evs with
  | [] => []
  | CredentialsGet o :: r => o :: assertions r
  | _ :: r => assertions r
  end.

(** The errors written to the console, in order. *)
Fixpoint logged_errors (evs : list Event) : list JsError :=
  match evs with
  | [] => []
  | ConsoleError e :: r => e :: logged_errors r
  | _ :: r => logged_errors r
  end.

(** A request carries the relying-party id and the origin of [c]. *)
Definition carries_party (c : Config) (q : Request) : Prop :=
  get (body q) "RPID" = VString (rpid c)
  /\ get (body q) "Origin" = VString (origin c).

(** The two single-character replacements of [base64ToBase64Url] on one
    character. *)
Definition url_char (c : Z) : Z :=
  let c' := if c =? ch_plus then ch_minus else c in
  if c' =? ch_slash then ch_underscore else c'.

(** Those of [base64UrlToBase64]. *)
Definition std_char (c : Z) : Z :=
  let c' := if c =? ch_minus then ch_plus else c in
  if c' =? ch_underscore then ch_slash else c'.

(** The elements ToNumber converts without raising. *)
Definition convertible (e : element) : bool :=
  match e with
  | ESymbol | EBigInt _ => false
  | _ => true
  end.

(** The byte an array element is stored as: an integer modulo 2^8, any
    other finite number truncated toward zero and then modulo 2^8,
    [true] as 1, a string as the byte of its numeric value, anything
    else as 0. *)
Definition byte_of_element (P : Platform) (e : element) : Z :=
  match e with
  | ENumber (NInt z) => z mod 256
  | ENumber (NFraction q) => truncate q mod 256
  | EBoolean true => 1
  | EString s => ToUint8 (StringToNumber P s)
  | _ => 0
  end.

(** ** Example hosts *)

Definition example_config : Config :=
  {| apiUrl := lit "https://v3.passwordless.dev";
     apiKey := lit "demo:public:key";
     origin := lit "https://app.example";
     rpid := lit "app.example" |}.

Definition example_attestation : PublicKeyCredential :=
  {| id := lit "CQgH_w";
     rawId := [9; 8; 7; 255];
     type := lit "public-key";
     response := Attestation [123; 125] [163; 0; 255];
     getClientExtensionResults := VObject [] |}.

Definition example_assertion : PublicKeyCredential :=
  {| id := lit "CQgH_w";
     rawId := [9; 8; 7; 255];
     type := lit "public-key";
     response := Assertion [123; 125] [73; 150; 13] [48; 69; 2; 33];
     getClientExtensionResults := VObject [] |}.

Definition example_creation_options : CreationOptions :=
  {| co_challenge := VString (lit "AQID");
     co_user_id := VString (lit "dTE");
     co_excludeCredentials :=
       Some [{| cred_id := VString (lit "-_8"); cred_other := VNull |}];
     co_other := VNull |}.

Definition example_request_options : RequestOptions :=
  {| ro_challenge := VString (lit "AQID");
     ro_allowCredentials :=
       Some [{| cred_id := VString (lit "CQgH_w"); cred_other := VNull |}];
     ro_other := VNull |}.

Definition example_engine_message (f : EngineFault) : jsstring :=
  match f with
  | ReadPropertyOfNull _ => lit "Cannot read properties of null"
  | SymbolToNumber => lit "Cannot convert a Symbol value to a number"
  | BigIntToNumber => lit "Cannot convert a BigInt value to a number"
  | SerializeBigInt => lit "Do not know how to serialize a BigInt"
  | InvalidCharacter => lit "The string to be decoded is not correctly encoded."
  end.

(** A host with the given binding of [window.PublicKeyCredential], whose
    backend answers every call and whose ceremonies resolve to [created]
    and [got]. *)
Definition example_host (b : Binding)
    (created got : option PublicKeyCredential) : Platform :=
  {| window_PublicKeyCredential := b;
     register_begin := fun _ =>
       inr {| json := inr {| rb_sessionId := lit "session-1";
                             rb_data := example_creation_options |} |};
     register_complete := fun _ =>
       inr {| json := inr (VObject [prop "registered" (VBoolean true)]) |};
     signin_begin := fun _ =>
       inr {| json := inr {| sb_sessionId := lit "session-2";
                             sb_data := example_request_options |} |};
     signin_complete := fun _ =>
       inr {| json := inr {| sc_data := lit "verify_token" |} |};
     credentials_create := fun _ => inr created;
     credentials_get := fun _ => inr got;
     isUserVerifyingPlatformAuthenticatorAvailable := inr true;
     engine_message := example_engine_message;
     StringToNumber := fun _ => NaN |}.

(** A browser with WebAuthn in which the user completes the ceremony. *)
Definition example_platform : Platform :=
  example_host BoundToFunction (Some example_attestation)
    (Some example_assertion).

(** Credentials whose extension results hold binary data, as the [prf]
    extension reports them. *)
Definition prf_results : value :=
  VObject [prop "prf" (VObject [prop "results" (VObject [
    prop "first" (VArrayBuffer [1; 2; 3])])])].

Definition prf_attestation : PublicKeyCredential :=
  {| id := lit "CQgH_w";
     rawId := [9; 8; 7; 255];
     type := lit "public-key";
     response := Attestation [123; 125] [163; 0; 255];
     getClientExtensionResults := prf_results |}.

Definition prf_assertion : PublicKeyCredential :=
  {| id := lit "CQgH_w";
     rawId := [9; 8; 7; 255];
     type := lit "public-key";
     response := Assertion [123; 125] [73; 150; 13] [48; 69; 2; 33];
     getClientExtensionResults := prf_results |}.

(** A browser with WebAuthn whose authenticator evaluates [prf]. *)
Definition prf_platform : Platform :=
  example_host BoundToFunction (Some prf_attestation) (Some prf_assertion).

(** A browser with WebAuthn whose ceremonies resolve to [null]. *)
Definition dismissing_platform : Platform :=
  example_host BoundToFunction None None.

(** A browser without WebAuthn. *)
Definition legacy_platform : Platform :=
  example_host Unbound None None.

(** ** Construction *)

(** [window.location], as far as the field initializer reads it. *)
Record Location := {
  location_origin : jsstring;
  location_hostname : jsstring;
}.

(** Modelled from the spec: the type [AtLeast<Config, 'apiKey'>] of
    [types.ts], the argument of the constructor.  The API key is
    required; the backend URL, the origin and the relying-party id may be
    left out, and a property that is given holds a string. *)
Record ConfigArgument := {
  arg_apiUrl : option jsstring;
  arg_apiKey : jsstring;
  arg_origin : option jsstring;
  arg_rpid : option jsstring;
}.

(** The initializer of the private field [config]. *)
Definition default_config (w : Location) : Config :=
  {| apiUrl := lit "https://v3.passwordless.dev";
     apiKey := lit "";
     origin := location_origin w;
     rpid := location_hostname w |}.

(** [Object.assign(target, source)]: every property [source] has
    overwrites the one of [target]. *)
Definition Object_assign (target : Config) (source : ConfigArgument) : Config :=
  {| apiUrl := default (apiUrl target) (arg_apiUrl source);
     apiKey := arg_apiKey source;
     origin := default (origin target) (arg_origin source);
     rpid := default (rpid target) (arg_rpid source) |}.

(** [new Client(config)]: the state of a fresh client. *)
Definition Client_constructor (w : Location) (c : ConfigArgument) : State :=
  {| config := Object_assign (default_config w) c; events := [] |}.

(** ** Vocabulary of the further properties *)

(** The bytes a field of the ceremony options stands for: those of the
    text, when the field is a string that [atob] accepts after the two
    replacements. *)
Definition decode_text (v : value) : option (list Z) :=
  match v with
  | VString s =>
      match atob (base64UrlToBase64 s) with
      | Some string => Some (map (fun c => c mod 256) string)
      | None => None
      end
  | _ => None
  end.

(** A descriptor with its id in binary. *)
Definition decode_descriptor (d : CredentialDescriptor)
    : option CredentialDescriptor :=
  match decode_text (cred_id d) with
  | Some b => Some {| cred_id := VUint8Array b; cred_other := cred_other d |}
  | None => None
  end.

(** An exclude or allow list with every id in binary; a missing list
    stays missing. *)
Definition decode_descriptors (l : option (list CredentialDescriptor))
    : option (option (list CredentialDescriptor)) :=
  match l with
  | None => Some None
  | Some ds =>
      match mapM decode_descriptor ds with
      | Some ds' => Some (Some ds')
      | None => None
      end
  end.

(** The creation options with every binary field decoded. *)
Definition decode_creation_options (o : CreationOptions)
    : option CreationOptions :=
  match decode_text (co_challenge o), decode_text (co_user_id o),
        decode_descriptors (co_excludeCredentials o) with
  | Some c, Some u, Some l =>
      Some {| co_challenge := VUint8Array c;
              co_user_id := VUint8Array u;
              co_excludeCredentials := l;
              co_other := co_other o |}
  | _, _, _ => None
  end.

(** The request options with every binary field decoded. *)
Definition decode_request_options (o : RequestOptions)
    : option RequestOptions :=
  match decode_text (ro_challenge o),
        decode_descriptors (ro_allowCredentials o) with
  | Some c, Some l =>
      Some {| ro_challenge := VUint8Array c;
              ro_allowCredentials := l;
              ro_other := ro_other o |}
  | _, _ => None
  end.

(** The property a serialization writes for a value: none, when the
    value is written as nothing. *)
Definition written (key : string) (text : option value)
    : list (string * value) :=
  match text with
  | Some j => [prop key j]
  | None => []
  end.

(** A request, where only some request is needed. *)
Definition any_request : Request :=
  {| url := []; method := []; headers := []; body := VNull |}.

(** The buffers of a credential hold bytes. *)
Definition wf_credential (c : PublicKeyCredential) : Prop :=
  Forall is_byte (rawId c)
  /\ match response c with
     | Attestation cd ao => Forall is_byte cd /\ Forall is_byte ao
     | Assertion cd ad sg =>
         Forall is_byte cd /\ Forall is_byte ad /\ Forall is_byte sg
     end.

(** The first element of an array that ToNumber refuses, as the fault it
    raises. *)
Fixpoint first_fault (elems : list element) : option EngineFault :=
  match elems with
  | [] => None
  | ESymbol :: _ => Some SymbolToNumber
  | EBigInt _ :: _ => Some BigIntToNumber
  | _ :: r => first_fault r
  end.

(** A character of the URL-safe alphabet: a letter, a digit, [-] or
    [_]. *)
Definition is_url_safe (c : Z) : Prop :=
  65 <= c <= 90 \/ 97 <= c <= 122 \/ 48 <= c <= 57 \/ c = 45 \/ c = 95.

(** A supporting browser that cannot reach the registration endpoints;
    the sign-in endpoints answer. *)
Definition register_offline_platform : Platform :=
  {| window_PublicKeyCredential := BoundToFunction;
     register_begin := fun _ => inl (TypeError (lit "Failed to fetch"));
     register_complete := fun _ => inl (TypeError (lit "Failed to fetch"));
     signin_begin := signin_begin example_platform;
     signin_complete := signin_complete example_platform;
     credentials_create := fun _ => inr (Some example_attestation);
     credentials_get := fun _ => inr (Some example_assertion);
     isUserVerifyingPlatformAuthenticatorAvailable := inr true;
     engine_message := example_engine_message;
     StringToNumber := fun _ => NaN |}.

(** A supporting browser that cannot reach the sign-in endpoints; the
    registration endpoints answer. *)
Definition signin_offline_platform : Platform :=
  {| window_PublicKeyCredential := BoundToFunction;
     register_begin := register_begin example_platform;
     register_complete := register_complete example_platform;
     signin_begin := fun _ => inl (TypeError (lit "Failed to fetch"));
     signin_complete := fun _ => inl (TypeError (lit "Failed to fetch"));
     credentials_create := fun _ => inr (Some example_attestation);
     credentials_get := fun _ => inr (Some example_assertion);
     isUserVerifyingPlatformAuthenticatorAvailable := inr true;
     engine_message := example_engine_message;
     StringToNumber := fun _ => NaN |}.

(** The rejection of a ceremony the user does not allow. *)
Definition not_allowed : JsError :=
  DOMException "NotAllowedError"
    (lit "The operation either timed out or was not allowed.").

(** A supporting browser whose user dismisses the prompt of a
    registration, and completes a sign-in. *)
Definition create_refusing_platform : Platform :=
  {| window_PublicKeyCredential := BoundToFunction;
     register_begin := register_begin example_platform;
     register_complete := register_complete example_platform;
     signin_begin := signin_begin example_platform;
     signin_complete := signin_complete example_platform;
     credentials_create := fun _ => inl not_allowed;
     credentials_get := fun _ => inr (Some example_assertion);
     isUserVerifyingPlatformAuthenticatorAvailable := inr true;
     engine_message := example_engine_message;
     StringToNumber := fun _ => NaN |}.

(** A supporting browser whose user dismisses the prompt of a sign-in,
    and completes a registration. *)
Definition get_refusing_platform : Platform :=
  {| window_PublicKeyCredential := BoundToFunction;
     register_begin := register_begin example_platform;
     register_complete := register_complete example_platform;
     signin_begin := signin_begin example_platform;
     signin_complete := signin_complete example_platform;
     credentials_create := fun _ => inr (Some example_attestation);
     credentials_get := fun _ => inl not_allowed;
     isUserVerifyingPlatformAuthenticatorAvailable := inr true;
     engine_message := example_engine_message;
     StringToNumber := fun _ => NaN |}.

(** * Properties *)

(** ** The platform functions on examples *)

Example atob_AQID : atob (lit "AQID") = Some [1; 2; 3].
Proof. reflexivity. Qed.

Example btoa_123 : btoa [1; 2; 3] = Some (lit "AQID").
Proof. reflexivity. Qed.

Example btoa_padded : btoa [255] = Some (lit "/w==").
Proof. reflexivity. Qed.

Example atob_unpadded : atob (lit "/w") = Some [255].
Proof. reflexivity. Qed.

Example atob_padded_with_space : atob (lit "/w= =") = Some [255].
Proof. reflexivity. Qed.

Example atob_bad_length : atob (lit "AQIDA") = None.
Proof. reflexivity. Qed.

Example atob_url_alphabet : atob (lit "-_8") = None.
Proof. reflexivity. Qed.

Example btoa_wide_character : btoa [256] = None.
Proof. reflexivity. Qed.

Example base64ToBase64Url_strips : base64ToBase64Url (lit "+/8=") = lit "-_8".
Proof. reflexivity. Qed.

Example serialize_drops_undefined :
  serialize (VObject [prop "userId" (VString (lit "u1"));
                      prop "alias" VUndefined])
  = inr (Some (VObject [prop "userId" (VString (lit "u1"))])).
Proof. reflexivity. Qed.

Example serialize_binary_extension_results :
  serialize (VObject [prop "prf" (VObject [prop "results" (VObject [
               prop "first" (VArrayBuffer [1; 2; 3])])])])
  = inr (Some (VObject [prop "prf" (VObject [prop "results" (VObject [
               prop "first" (VObject [])])])])).
Proof. reflexivity. Qed.

Example serialize_typed_array :
  serialize (VUint8Array [7; 8])
  = inr (Some (VObject [prop "0" (VNumber (NInt 7));
                        prop "1" (VNumber (NInt 8))])).
Proof. reflexivity. Qed.

Example serialize_array_slots :
  serialize (VArray [EUndefined; ENumber NaN; ENumber (NInt 3); ESymbol])
  = inr (Some (VArray [ENull; ENull; ENumber (NInt 3); ENull])).
Proof. reflexivity. Qed.

Example serialize_bigint :
  serialize (VObject [prop "n" (VArray [EBigInt 1])]) = inl SerializeBigInt.
Proof. reflexivity. Qed.

Example ToUint8_truncates_toward_zero :
  map ToUint8 [NFraction (3 # 2); NFraction (-3 # 2);
               NFraction (2559 # 10); NFraction (-1 # 2)]
  = [1; 255; 255; 0].
Proof. reflexivity. Qed.

(** ** Loops of the two coercions *)

Lemma for_loop_fromCharCode (a pre : list Z) (s : jsstring) :
  for_loop (length a) (length pre)
    (fun i string => string ++ String_fromCharCode (typed_get (pre ++ a) i)) s
  = s ++ map (fun b => b mod 65536) a.
Proof.
  revert pre s. induction a as [|x r IH]; intros pre s; simpl.
  - by rewrite app_nil_r.
  - assert (typed_get (pre ++ x :: r) (length pre) = NInt x) as ->
      by (unfold typed_get; by rewrite list_lookup_middle).
    unfold String_fromCharCode at 2. simpl ToUint16.
    specialize (IH (pre ++ [x]) (s ++ [x mod 65536])).
    rewrite length_app, Nat.add_1_r, <- !app_assoc in IH. simpl in IH.
    by rewrite IH.
Qed.

Lemma for_loop_charCodeAt (r pre done : list Z) :
  length done = length pre ->
  for_loop (length r) (length pre)
    (fun i bytes => typed_set bytes i (charCodeAt (pre ++ r) i))
    (done ++ replicate (length r) 0)
  = done ++ map (fun c => c mod 256) r.
Proof.
  revert pre done. induction r as [|x r IH]; intros pre done Hlen; simpl.
  - done.
  - assert (charCodeAt (pre ++ x :: r) (length pre) = NInt x) as ->
      by (unfold charCodeAt; by rewrite list_lookup_middle).
    unfold typed_set at 2. simpl ToUint8.
    rewrite <- Hlen, insert_app_r_alt, Nat.sub_diag by lia. simpl.
    specialize (IH (pre ++ [x]) (done ++ [x mod 256])).
    rewrite !length_app, <- !app_assoc, !Nat.add_1_r in IH. simpl in IH.
    rewrite Hlen. apply IH. lia.
Qed.

Lemma map_mod_bytes (m : Z) (l : list Z) :
  256 <= m -> Forall is_byte l -> map (fun b => b mod m) l = l.
Proof.
  intros Hm. induction 1 as [|x l Hx _ IH]; simpl; [done|].
  rewrite IH. f_equal. unfold is_byte in Hx. apply Z.mod_small. lia.
Qed.

(** ** The alphabet *)

Module Base64Facts.
Import Base64.

Lemma index_of_char_of v : is_sextet v -> index_of (char_of v) = Some v.
Proof.
  unfold is_sextet, index_of, char_of. intros Hv.
  repeat match goal with
  | |- context [?a <? ?b] => destruct (Z.ltb_spec a b)
  | |- context [?a <=? ?b] => destruct (Z.leb_spec a b)
  | |- context [?a =? ?b] => destruct (Z.eqb_spec a b)
  | _ => progress simpl
  end; try lia; f_equal; lia.
Qed.

Lemma in_alphabet_cases c :
  in_alphabet c ->
  65 <= c <= 90 \/ 97 <= c <= 122 \/ 48 <= c <= 57 \/ c = 43 \/ c = 47.
Proof.
  unfold in_alphabet, index_of. intros [v Hv]. revert Hv.
  repeat match goal with
  | |- context [?a <=? ?b] => destruct (Z.leb_spec a b)
  | |- context [?a =? ?b] => destruct (Z.eqb_spec a b)
  | _ => progress simpl
  end; intros; try discriminate; lia.
Qed.

Lemma char_of_in_alphabet v : is_sextet v -> in_alphabet (char_of v).
Proof. intros Hv. unfold in_alphabet. rewrite index_of_char_of; eauto. Qed.

(** Induction over a list three elements at a time. *)
Lemma list_ind3 {A} (Q : list A -> Prop) :
  Q [] -> (forall a, Q [a]) -> (forall a b, Q [a; b]) ->
  (forall a b c l, Q l -> Q (a :: b :: c :: l)) ->
  forall l, Q l.
Proof.
  intros H0 H1 H2 H3.
  assert (forall l, Q l /\ (forall a, Q (a :: l)) /\ (forall a b, Q (a :: b :: l)))
    as H; [|intros l; apply H].
  induction l as [|x l (IH0 & IH1 & IH2)]; [by auto|].
  repeat split; auto.
Qed.

Lemma encode_split bs :
  encode bs = map char_of (encode_values bs) ++ replicate (padding bs) ch_eq.
Proof.
  induction bs as [|a|a b|a b c l IH] using list_ind3; try reflexivity.
  change (encode (a :: b :: c :: l)) with
    (let n := a * 65536 + b * 256 + c in
     char_of (n / 262144) :: char_of (n / 4096 mod 64)
       :: char_of (n / 64 mod 64) :: char_of (n mod 64) :: encode l).
  simpl. by rewrite IH.
Qed.

Lemma encode_values_sextets bs :
  Forall is_byte bs -> Forall is_sextet (encode_values bs).
Proof.
  unfold is_byte, is_sextet.
  induction bs as [|a|a b|a b c l IH] using list_ind3; intros H.
  - constructor.
  - inversion_clear H. simpl. repeat constructor;
      Z.div_mod_to_equations; lia.
  - inversion_clear H as [|? ? ? H']. inversion_clear H'.
    simpl. repeat constructor; Z.div_mod_to_equations; lia.
  - inversion_clear H as [|? ? ? H']. inversion_clear H' as [|? ? ? H''].
    inversion_clear H''.
    change (encode_values (a :: b :: c :: l)) with
      (let n := a * 65536 + b * 256 + c in
       n / 262144 :: n / 4096 mod 64 :: n / 64 mod 64 :: n mod 64
         :: encode_values l).
    simpl. repeat constructor; try (Z.div_mod_to_equations; lia). auto.
Qed.

Lemma encode_values_length bs :
  (length (encode_values bs) mod 4 <> 1)%nat.
Proof.
  induction bs as [|a|a b|a b c l IH] using list_ind3; try (simpl; lia).
  change (length (encode_values (a :: b :: c :: l)))
    with (4 + length (encode_values l))%nat.
  replace (4 + length (encode_values l))%nat
    with (length (encode_values l) + 1 * 4)%nat by lia.
  by rewrite Nat.Div0.mod_add.
Qed.

Lemma decode_encode_values bs :
  Forall is_byte bs -> decode_values (encode_values bs) = bs.
Proof.
  unfold is_byte.
  induction bs as [|a|a b|a b c l IH] using list_ind3; intros H.
  - reflexivity.
  - inversion_clear H. simpl. f_equal. Z.div_mod_to_equations; lia.
  - inversion_clear H as [|? ? ? H']. inversion_clear H'.
    simpl. repeat f_equal; Z.div_mod_to_equations; lia.
  - inversion_clear H as [|? ? ? H']. inversion_clear H' as [|? ? ? H''].
    inversion_clear H''.
    change (encode_values (a :: b :: c :: l)) with
      (let n := a * 65536 + b * 256 + c in
       n / 262144 :: n / 4096 mod 64 :: n / 64 mod 64 :: n mod 64
         :: encode_values l).
    cbv zeta.
    change (decode_values (?s0 :: ?s1 :: ?s2 :: ?s3 :: ?r)) with
      (let n := ((s0 * 64 + s1) * 64 + s2) * 64 + s3 in
       n / 65536 :: n / 256 mod 256 :: n mod 256 :: decode_values r).
    cbv zeta. rewrite IH by done.
    repeat f_equal; Z.div_mod_to_equations; lia.
Qed.

End Base64Facts.

(** ** The replacements *)

(** Case analysis on an innermost test [a =? b] or [a <? b]: one whose
    left side contains no test itself. *)
Ltac case_eqb :=
  match goal with
  | |- context [?a =? ?b] =>
      lazymatch a with
      | context [Z.eqb] => fail
      | context [Z.ltb] => fail
      | _ => destruct (Z.eqb_spec a b); cbv iota
      end
  | |- context [?a <? ?b] =>
      lazymatch a with
      | context [Z.eqb] => fail
      | context [Z.ltb] => fail
      | _ => destruct (Z.ltb_spec a b); cbv iota
      end
  end.

Lemma rev_replicate (k : nat) (e : Z) : rev (replicate k e) = replicate k e.
Proof.
  induction k as [|k IH]; [done|].
  simpl. rewrite IH. symmetry. apply replicate_S_end.
Qed.

Lemma drop_leading_replicate (e : Z) (k : nat) (l : list Z) :
  drop_leading e (replicate k e ++ l) = drop_leading e l.
Proof. induction k as [|k IH]; [done|]. simpl. by rewrite Z.eqb_refl. Qed.

Lemma drop_leading_none (e : Z) (l : list Z) :
  Forall (fun c => c <> e) l -> drop_leading e l = l.
Proof.
  destruct 1 as [|x l Hx _]; [done|].
  simpl. by destruct (Z.eqb_spec x e).
Qed.

Lemma strip_trailing_padding (e : Z) (k : nat) (l : list Z) :
  Forall (fun c => c <> e) l -> strip_trailing e (l ++ replicate k e) = l.
Proof.
  intros Hl. unfold strip_trailing.
  rewrite rev_app_distr, rev_replicate, drop_leading_replicate.
  rewrite drop_leading_none by by apply Forall_rev.
  apply rev_involutive.
Qed.

Lemma replace_all_app (c d : Z) (l k : list Z) :
  replace_all c d (l ++ k) = replace_all c d l ++ replace_all c d k.
Proof. apply map_app. Qed.

Lemma replace_all_replicate (c d e : Z) (k : nat) :
  e <> c -> replace_all c d (replicate k e) = replicate k e.
Proof.
  intros He. induction k as [|k IH]; [done|].
  simpl. rewrite IH. by destruct (Z.eqb_spec e c).
Qed.

(** ** The transcoder *)

Section Transcoder.

Variable P : Platform.

Import Base64 Base64Facts.

Lemma base64UrlToBase64_map s : base64UrlToBase64 s = map std_char s.
Proof. unfold base64UrlToBase64, replace_all. by rewrite map_map. Qed.

Lemma url_char_spec c :
  in_alphabet c ->
  std_char (url_char c) = c /\ url_char c <> ch_eq
  /\ url_char c <> ch_plus /\ url_char c <> ch_slash.
Proof.
  intros Hc%in_alphabet_cases.
  unfold std_char, url_char, ch_plus, ch_minus, ch_slash, ch_underscore,
    ch_eq.
  cbv zeta. repeat case_eqb; lia.
Qed.

Lemma std_char_alphabet c : in_alphabet c -> std_char c = c.
Proof.
  intros Hc%in_alphabet_cases.
  unfold std_char, ch_plus, ch_minus, ch_slash, ch_underscore.
  cbv zeta. repeat case_eqb; lia.
Qed.

(** The encoder's output: the url characters of the six-bit values,
    no padding. *)
Lemma base64ToBase64Url_encode bs :
  Forall is_byte bs ->
  base64ToBase64Url (encode bs) = map url_char (map char_of (encode_values bs)).
Proof.
  intros Hbs%encode_values_sextets. unfold base64ToBase64Url.
  rewrite encode_split, !replace_all_app.
  rewrite !replace_all_replicate by done.
  rewrite strip_trailing_padding.
  - unfold replace_all. by rewrite map_map.
  - unfold replace_all. rewrite map_map.
    induction Hbs as [|v vs Hv _ IH]; simpl; constructor; [|done].
    by apply (url_char_spec (char_of v)), char_of_in_alphabet.
Qed.

Lemma base64_url_roundtrip bs :
  Forall is_byte bs ->
  base64UrlToBase64 (base64ToBase64Url (encode bs))
  = map char_of (encode_values bs).
Proof.
  intros Hbs. rewrite base64ToBase64Url_encode, base64UrlToBase64_map by done.
  apply encode_values_sextets in Hbs.
  induction Hbs as [|v vs Hv _ IH]; simpl; [done|].
  rewrite IH. f_equal.
  by apply (url_char_spec (char_of v)), char_of_in_alphabet.
Qed.

Lemma filter_whitespace_alphabet (l : list Z) :
  Forall in_alphabet l -> filter (fun c => is_whitespace c = false) l = l.
Proof.
  induction 1 as [|c l Hc%in_alphabet_cases _ IH]; [done|].
  rewrite filter_cons_True, IH; [done|].
  unfold is_whitespace.
  repeat match goal with
  | |- context [?a =? ?b] => destruct (Z.eqb_spec a b)
  end; simpl; try done; lia.
Qed.

Lemma strip_padding_alphabet (l : list Z) :
  Forall in_alphabet l -> strip_padding l = l.
Proof.
  intros Hl%Forall_rev. unfold strip_padding.
  destruct Hl as [|x r Hx%in_alphabet_cases _]; [done|].
  unfold ch_eq. destruct (Z.eqb_spec x 61); [lia|]. by destruct r.
Qed.

Lemma mapM_index_of vs :
  Forall is_sextet vs -> mapM index_of (map char_of vs) = Some vs.
Proof.
  induction 1 as [|v vs Hv _ IH]; [done|].
  simpl. rewrite index_of_char_of by done. simpl. by rewrite IH.
Qed.

Lemma forgiving_decode_values vs :
  Forall is_sextet vs -> (length vs mod 4 <> 1)%nat ->
  forgiving_decode (map char_of vs) = Some (decode_values vs).
Proof.
  intros Hvs Hlen. unfold forgiving_decode.
  assert (Forall in_alphabet (map char_of vs)) as Halpha.
  { clear Hlen.
    induction Hvs; simpl; constructor; auto using char_of_in_alphabet. }
  rewrite filter_whitespace_alphabet by done.
  rewrite strip_padding_alphabet by done.
  assert (((Z.of_nat (length vs)) mod 4 =? 1) = false) as Hone.
  { apply Z.eqb_neq. intros E. apply Hlen.
    apply Nat2Z.inj. rewrite Nat2Z.inj_mod. exact E. }
  destruct (_ =? 0); rewrite length_map, Hone, mapM_index_of by done;
    reflexivity.
Qed.

(** [atob] undoes the encoder. *)
Lemma atob_base64_url bs :
  Forall is_byte bs ->
  atob (base64UrlToBase64 (base64ToBase64Url (encode bs))) = Some bs.
Proof.
  intros Hbs. rewrite base64_url_roundtrip by done. unfold atob.
  rewrite forgiving_decode_values
    by auto using encode_values_sextets, encode_values_length.
  by rewrite decode_encode_values.
Qed.

Lemma btoa_bytes bs : Forall is_byte bs -> btoa bs = Some (encode bs).
Proof.
  intros Hbs. unfold btoa.
  assert (forallb (fun c => c <=? 255) bs = true) as ->; [|done].
  induction Hbs as [|b bs Hb _ IH]; [done|].
  simpl. rewrite IH. unfold is_byte in Hb.
  destruct (Z.leb_spec b 255); [done|lia].
Qed.

(** What the encoder returns on a byte array. *)
Lemma coerceToBase64Url_bytes bs st :
  Forall is_byte bs ->
  run (coerceToBase64Url P (VUint8Array bs)) st
  = (inr (base64ToBase64Url (encode bs)), st).
Proof.
  intros Hbs. unfold run, coerceToBase64Url, bind, ret.
  pose proof (for_loop_fromCharCode bs [] []) as E. simpl in E.
  rewrite E, map_mod_bytes by (done || lia).
  by rewrite btoa_bytes.
Qed.

(** What the decoder returns on a string. *)
Lemma coerceToArrayBuffer_string s st :
  run (coerceToArrayBuffer P (VString s)) st
  = match atob (base64UrlToBase64 s) with
    | Some string => (inr (map (fun c => c mod 256) string), st)
    | None => (inl (engine_error P InvalidCharacter), st)
    end.
Proof.
  unfold run, coerceToArrayBuffer.
  destruct (atob (base64UrlToBase64 s)) as [string|]; [|done].
  pose proof (for_loop_charCodeAt string [] [] eq_refl) as E. simpl in E.
  unfold new_Uint8Array, ret. by rewrite E.
Qed.

End Transcoder.

(** ** Runs *)

Lemma log_nil st : log st [] = st.
Proof. destruct st. unfold log. simpl. by rewrite app_nil_r. Qed.

Lemma log_log st a b : log (log st a) b = log st (a ++ b).
Proof. unfold log. simpl. by rewrite app_assoc. Qed.

Lemma emit_log ev st : emit ev st = (inr tt, log st [ev]).
Proof. reflexivity. Qed.

Lemma quiet_ret {A} (a : A) : quiet (ret a).
Proof. intros st. exists (inr a), []. by rewrite log_nil. Qed.

Lemma quiet_throw {A} e : quiet (@throw A e).
Proof. intros st. exists (inl e), []. by rewrite log_nil. Qed.

Lemma quiet_bind {A B} (m : M A) (k : A -> M B) :
  quiet m -> (forall a, quiet (k a)) -> quiet (bind m k).
Proof.
  intros Hm Hk st. unfold bind.
  destruct (Hm st) as ([e|a] & ws & -> & Hws).
  - by exists (inl e), ws.
  - destruct (Hk a (log st ws)) as (r & ws' & -> & Hws').
    exists r, (ws ++ ws'). rewrite log_log. split; [done|].
    by apply Forall_app.
Qed.

Lemma quiet_forEach {A B} (f : A -> M B) l :
  (forall a, quiet (f a)) -> quiet (forEach f l).
Proof.
  intros Hf. induction l as [|x l IH]; simpl.
  - apply quiet_ret.
  - apply quiet_bind; [done|]. intros y.
    apply quiet_bind; [done|]. intros ys. apply quiet_ret.
Qed.

Lemma quiet_console_warn text v : quiet (console_warn text v).
Proof.
  intros st. exists (inr tt), [ConsoleWarn text v].
  split; [done|]. by repeat constructor.
Qed.

Section Quiet.

Variable P : Platform.

Lemma quiet_coerceToArrayBuffer v : quiet (coerceToArrayBuffer P v).
Proof.
  assert (quiet (let* _ := console_warn (lit "Could not coerce to string:") v in
                 @throw (list Z) (TypeError (lit "Could not coerce to ArrayBuffer"))))
    as Hfail.
  { apply quiet_bind; [apply quiet_console_warn|].
    intros _. apply quiet_throw. }
  destruct v; try exact Hfail.
  unfold coerceToArrayBuffer. destruct (atob _).
  - apply quiet_ret.
  - apply quiet_throw.
Qed.

Lemma quiet_transcode_descriptors l : quiet (transcode_descriptors P l).
Proof.
  destruct l as [creds|]; simpl; [|apply quiet_ret].
  apply quiet_bind; [|intros; apply quiet_ret].
  apply quiet_forEach. intros cred. unfold transcode_descriptor.
  apply quiet_bind; [apply quiet_coerceToArrayBuffer|].
  intros; apply quiet_ret.
Qed.

(** On a byte array the encoder makes no call at all, and on a
    well-formed one it cannot fail. *)
Lemma coerceToBase64Url_Uint8Array bs st :
  exists r, coerceToBase64Url P (VUint8Array bs) st = (r, st)
    /\ (Forall is_byte bs ->
        r = inr (base64ToBase64Url (Base64.encode bs))).
Proof.
  unfold coerceToBase64Url, bind, ret.
  destruct (btoa _) as [s|] eqn:E.
  - exists (inr (base64ToBase64Url s)). split; [done|].
    intros Hbs. pose proof (coerceToBase64Url_bytes P bs st Hbs) as R.
    unfold run, coerceToBase64Url, bind, ret in R. rewrite E in R.
    by inversion R.
  - exists (inl (engine_error P InvalidCharacter)). split; [done|].
    intros Hbs. pose proof (coerceToBase64Url_bytes P bs st Hbs) as R.
    unfold run, coerceToBase64Url, bind, ret in R. rewrite E in R.
    by inversion R.
Qed.

End Quiet.

(** ** The encoder against RFC 4648 *)

Lemma url_char_of_char_of v :
  is_sextet v -> url_char (Base64.char_of v) = Base64.url_char_of v.
Proof.
  unfold is_sextet, url_char, Base64.char_of, Base64.url_char_of,
    ch_plus, ch_minus, ch_slash, ch_underscore.
  intros Hv. cbv zeta. repeat case_eqb; lia.
Qed.

Lemma base64ToBase64Url_encode_url bs :
  Forall is_byte bs -> base64ToBase64Url (Base64.encode bs) = Base64.encode_url bs.
Proof.
  intros Hbs. rewrite base64ToBase64Url_encode by done.
  unfold Base64.encode_url. rewrite map_map.
  apply Base64Facts.encode_values_sextets in Hbs.
  induction Hbs as [|v vs Hv _ IH]; simpl; [done|].
  by rewrite IH, url_char_of_char_of.
Qed.

Lemma encode_url_alphabet bs :
  Forall is_byte bs ->
  Forall (fun c => c <> ch_plus /\ c <> ch_slash /\ c <> ch_eq)
    (Base64.encode_url bs).
Proof.
  intros Hbs%Base64Facts.encode_values_sextets. unfold Base64.encode_url.
  induction Hbs as [|v vs Hv _ IH]; simpl; constructor; [|done].
  rewrite <- url_char_of_char_of by done.
  pose proof (url_char_spec _ (Base64Facts.char_of_in_alphabet v Hv)).
  tauto.
Qed.

Lemma std_char_url_char c : std_char (url_char c) = std_char c.
Proof.
  unfold std_char, url_char, ch_plus, ch_minus, ch_slash, ch_underscore.
  cbv zeta. repeat case_eqb; lia.
Qed.

Lemma ToUint8_byte n : is_byte (ToUint8 n).
Proof.
  unfold is_byte. destruct n; simpl; try lia; apply Z.mod_pos_bound; lia.
Qed.

Lemma Uint8Array_from_convertible P elems st :
  Forall (fun e => convertible e = true) elems ->
  Uint8Array_from P elems st = (inr (map (byte_of_element P) elems), st).
Proof.
  unfold Uint8Array_from.
  induction 1 as [|e elems He _ IH]; [done|].
  simpl. unfold bind at 1.
  assert (ToNumber P e = inr match e with
                             | ENumber n => n
                             | EBoolean b => NInt (if b then 1 else 0)
                             | EString s => StringToNumber P s
                             | ENull => NInt 0
                             | _ => NaN
                             end) as ->
    by (by destruct e).
  unfold ret at 1. unfold bind at 1. rewrite IH. unfold ret.
  repeat f_equal. by destruct e as [| |[]|[]| | |].
Qed.

Lemma byte_of_element_byte P e : is_byte (byte_of_element P e).
Proof.
  destruct e as [| |[]|[]| | |]; simpl; try (unfold is_byte; lia).
  - apply (ToUint8_byte (NInt z)).
  - apply (ToUint8_byte (NFraction q)).
  - apply ToUint8_byte.
Qed.

(** * The claims *)

(** ** Transcoder *)

(** C1: decoding the encoding of a byte sequence gives the byte sequence
    back, whatever its length and whatever its bytes:
    [coerceToArrayBuffer(coerceToBase64Url(B))] is [B], from a
    [Uint8Array] as from an [ArrayBuffer], and neither call touches the
    host. *)
Theorem transcoder_roundtrip (P : Platform) (B : list Z) (st : State) :
  Forall is_byte B ->
  run (let* s := coerceToBase64Url P (VUint8Array B) in
       coerceToArrayBuffer P (VString s)) st = (inr B, st)
  /\ run (let* s := coerceToBase64Url P (VArrayBuffer B) in
          coerceToArrayBuffer P (VString s)) st = (inr B, st).
Proof.
  intros HB.
  assert (run (let* s := coerceToBase64Url P (VUint8Array B) in
               coerceToArrayBuffer P (VString s)) st = (inr B, st)) as E.
  { unfold run, bind.
    pose proof (coerceToBase64Url_bytes P B st HB) as E1.
    unfold run in E1. rewrite E1.
    pose proof (coerceToArrayBuffer_string P
                  (base64ToBase64Url (Base64.encode B)) st) as E2.
    unfold run in E2. rewrite E2, atob_base64_url by done.
    by rewrite map_mod_bytes by (done || lia). }
  split; exact E.
Qed.

Lemma transcoder_roundtrip_witness :
  Forall is_byte [0; 255; 128; 62; 63]
  /\ run (let* s := coerceToBase64Url example_platform
                      (VUint8Array [0; 255; 128; 62; 63]) in
          coerceToArrayBuffer example_platform (VString s))
       (initial example_config)
     = (inr [0; 255; 128; 62; 63], initial example_config).
Proof.
  assert (Forall is_byte [0; 255; 128; 62; 63]) as H
    by (repeat constructor; unfold is_byte; lia).
  split; [exact H|].
  exact (proj1 (transcoder_roundtrip example_platform [0; 255; 128; 62; 63]
                  (initial example_config) H)).
Defined.

Lemma std_char_idempotent c : std_char (std_char c) = std_char c.
Proof.
  unfold std_char, ch_plus, ch_minus, ch_slash, ch_underscore.
  cbv zeta. repeat case_eqb; lia.
Qed.

(** C7, as the code has it: the encoder never writes [+], [/] or [=].
    The decoder accepts what the encoder wrote, with its [-] and [_],
    and gives the bytes back; and it accepts just as well the same text
    in the standard alphabet, with [+] for every [-] and [/] for every
    [_], and gives the same bytes.  In general it reads [+] as it reads
    [-] and [/] as it reads [_]: a text in the standard alphabet is
    decoded like its URL-safe spelling, whether to bytes or to an
    error. *)
Theorem transcoder_alphabets (P : Platform) (bs : list Z) (s : jsstring)
    (st : State) :
  Forall is_byte bs ->
  (exists t, run (coerceToBase64Url P (VUint8Array bs)) st = (inr t, st)
     /\ Forall (fun c => c <> ch_plus /\ c <> ch_slash /\ c <> ch_eq) t
     /\ run (coerceToArrayBuffer P (VString t)) st = (inr bs, st)
     /\ run (coerceToArrayBuffer P
               (VString (replace_all ch_underscore ch_slash
                           (replace_all ch_minus ch_plus t)))) st
        = (inr bs, st))
  /\ run (coerceToArrayBuffer P (VString s)) st
     = run (coerceToArrayBuffer P
              (VString (replace_all ch_slash ch_underscore
                          (replace_all ch_plus ch_minus s)))) st.
Proof.
  intros Hbs. split.
  - exists (Base64.encode_url bs).
    rewrite <- base64ToBase64Url_encode_url by done.
    pose proof (atob_base64_url bs Hbs) as Hdecode.
    split; [by rewrite coerceToBase64Url_bytes|].
    split; [rewrite base64ToBase64Url_encode_url by done;
            by apply encode_url_alphabet|].
    split.
    + rewrite coerceToArrayBuffer_string, Hdecode.
      by rewrite map_mod_bytes by (done || lia).
    + change (replace_all ch_underscore ch_slash
                (replace_all ch_minus ch_plus
                   (base64ToBase64Url (Base64.encode bs))))
        with (base64UrlToBase64 (base64ToBase64Url (Base64.encode bs))).
      rewrite coerceToArrayBuffer_string.
      assert (base64UrlToBase64
                (base64UrlToBase64 (base64ToBase64Url (Base64.encode bs)))
              = base64UrlToBase64 (base64ToBase64Url (Base64.encode bs)))
        as ->.
      { rewrite !base64UrlToBase64_map, map_map. apply map_ext.
        intros c. apply std_char_idempotent. }
      rewrite Hdecode. by rewrite map_mod_bytes by (done || lia).
  - rewrite !coerceToArrayBuffer_string, !base64UrlToBase64_map.
    unfold replace_all. rewrite !map_map.
    replace (map (fun x => std_char
                    (if (if x =? ch_plus then ch_minus else x) =? ch_slash
                     then ch_underscore
                     else if x =? ch_plus then ch_minus else x)) s)
      with (map std_char s); [done|].
    apply map_ext. intros c. symmetry. apply std_char_url_char.
Qed.

Lemma transcoder_alphabets_witness :
  Forall is_byte [251; 255; 191]
  /\ (exists t,
        run (coerceToBase64Url example_platform (VUint8Array [251; 255; 191]))
          (initial example_config)
        = (inr t, initial example_config)
        /\ t = lit "-_-_"
        /\ run (coerceToArrayBuffer example_platform (VString t))
             (initial example_config)
           = (inr [251; 255; 191], initial example_config)
        /\ run (coerceToArrayBuffer example_platform (VString (lit "+/+/")))
             (initial example_config)
           = (inr [251; 255; 191], initial example_config))
  /\ run (coerceToArrayBuffer example_platform (VString (lit "+/+/")))
       (initial example_config)
     = run (coerceToArrayBuffer example_platform
              (VString (replace_all ch_slash ch_underscore
                          (replace_all ch_plus ch_minus (lit "+/+/")))))
         (initial example_config).
Proof.
  assert (Forall is_byte [251; 255; 191]) as H
    by (repeat constructor; unfold is_byte; lia).
  split; [exact H|].
  destruct (transcoder_alphabets example_platform [251; 255; 191]
              (lit "+/+/") (initial example_config) H)
    as [(t & Ht & _ & Hurl & Hstd) Heq].
  split; [|exact Heq].
  assert (t = lit "-_-_") as Et by (vm_compute in Ht; by inversion Ht).
  exists t. split; [exact Ht|]. split; [exact Et|]. split; [exact Hurl|].
  rewrite Et in Hstd. exact Hstd.
Defined.

(** C7 as stated fails: a text in the standard alphabet is not rejected.
    ["+/+/"] decodes, and to the same bytes as ["-_-_"]. *)
Lemma decoder_accepts_standard_alphabet :
  run (coerceToArrayBuffer example_platform (VString (lit "+/+/")))
    (initial example_config)
  = (inr [251; 255; 191], initial example_config)
  /\ run (coerceToArrayBuffer example_platform (VString (lit "-_-_")))
       (initial example_config)
     = (inr [251; 255; 191], initial example_config).
Proof. split; reflexivity. Qed.

(** C10, as the code has it: on a plain array whose elements ToNumber
    converts (numbers of any size, with or without a fraction, strings,
    booleans, [undefined], [null]) the encoder succeeds without a range
    check and encodes the bytes [Uint8Array.from] stores: a finite
    number is truncated toward zero and then taken modulo 2^8, so 1.5
    is stored as 1, -1.5 as 255, 255.9 as 255 and -0.5 as 0; [NaN] and
    the infinities are stored as 0. *)
Theorem encoder_coerces_array_elements (P : Platform) (elems : list element)
    (st : State) :
  Forall (fun e => convertible e = true) elems ->
  run (coerceToBase64Url P (VArray elems)) st
  = (inr (Base64.encode_url (map (byte_of_element P) elems)), st).
Proof.
  intros Helems.
  assert (Forall is_byte (map (byte_of_element P) elems)) as Hbytes.
  { clear Helems. induction elems; simpl; constructor;
      auto using byte_of_element_byte. }
  pose proof (coerceToBase64Url_bytes P _ st Hbytes) as E.
  rewrite base64ToBase64Url_encode_url in E by done.
  unfold run in *. unfold coerceToBase64Url in *.
  unfold bind at 1. rewrite Uint8Array_from_convertible by done.
  unfold bind at 1 in E. unfold ret at 1 in E. exact E.
Qed.

Lemma encoder_coerces_array_elements_witness :
  Forall (fun e => convertible e = true)
    [ENumber (NInt 256); ENumber (NInt (-1)); ENumber (NInt 513);
     EUndefined; EBoolean true;
     ENumber (NFraction (3 # 2)); ENumber (NFraction (-3 # 2));
     ENumber (NFraction (2559 # 10)); ENumber (NFraction (-1 # 2));
     ENumber NaN; ENumber NegInfinity]
  /\ run (coerceToBase64Url example_platform
            (VArray [ENumber (NInt 256); ENumber (NInt (-1));
                     ENumber (NInt 513); EUndefined; EBoolean true;
                     ENumber (NFraction (3 # 2));
                     ENumber (NFraction (-3 # 2));
                     ENumber (NFraction (2559 # 10));
                     ENumber (NFraction (-1 # 2));
                     ENumber NaN; ENumber NegInfinity]))
       (initial example_config)
     = (inr (Base64.encode_url [0; 255; 1; 0; 1; 1; 255; 255; 0; 0; 0]),
        initial example_config).
Proof.
  assert (Forall (fun e => convertible e = true)
            [ENumber (NInt 256); ENumber (NInt (-1)); ENumber (NInt 513);
             EUndefined; EBoolean true;
             ENumber (NFraction (3 # 2)); ENumber (NFraction (-3 # 2));
             ENumber (NFraction (2559 # 10)); ENumber (NFraction (-1 # 2));
             ENumber NaN; ENumber NegInfinity]) as H
    by (repeat constructor).
  split; [exact H|].
  exact (encoder_coerces_array_elements example_platform _
           (initial example_config) H).
Defined.

(** C10 as stated fails: on an array that holds a Symbol the call does
    not succeed; [Uint8Array.from] raises a TypeError. *)
Lemma encoder_rejects_symbol_element :
  run (coerceToBase64Url example_platform
         (VArray [ENumber (NInt 300); ESymbol]))
    (initial example_config)
  = (inl (TypeError (lit "Cannot convert a Symbol value to a number")),
     initial example_config).
Proof. reflexivity. Qed.

(** ** Capability guard *)

Lemma unsupported_browser_outcome (P : Platform) :
  isBrowserSupported P = false ->
  forall (a b : jsstring) (m : SigninMethod) (st : State),
    register P a b st
      = (inl (Error (lit
          "WebAuthn and PublicKeyCredentials are not supported on this browser/device")),
         st)
    /\ signin P m st
       = (inl (Error (lit
           "WebAuthn and PublicKeyCredentials are not supported on this browser/device")),
          st).
Proof.
  intros H a b m st.
  unfold signin, register, assertBrowserSupported, bind.
  rewrite H. simpl negb. cbv iota. unfold throw. done.
Qed.

(** C4: without the public-key credential capability, [register],
    [signinWithId] and [signinWithAlias] fail with the unsupported-browser
    error and leave the state as it was: no request is issued, nothing is
    logged. *)
Theorem unsupported_browser_fails_fast (P : Platform)
    (token nick userId alias : jsstring) (st : State) :
  isBrowserSupported P = false ->
  let unsupported := Error (lit
    "WebAuthn and PublicKeyCredentials are not supported on this browser/device")
  in
  run (register P token nick) st = (inl unsupported, st)
  /\ run (signinWithId P userId) st = (inl unsupported, st)
  /\ run (signinWithAlias P alias) st = (inl unsupported, st).
Proof.
  intros H. cbv zeta. unfold run, signinWithId, signinWithAlias.
  pose proof (unsupported_browser_outcome P H) as Hout.
  split; [apply Hout; exact (ByUserId userId)|].
  split; apply Hout; exact token.
Qed.

Lemma unsupported_browser_fails_fast_witness :
  isBrowserSupported legacy_platform = false
  /\ run (register legacy_platform (lit "token") (lit "laptop"))
       (initial example_config)
     = (inl (Error (lit
         "WebAuthn and PublicKeyCredentials are not supported on this browser/device")),
        initial example_config).
Proof.
  split; [reflexivity|].
  exact (proj1 (unsupported_browser_fails_fast legacy_platform (lit "token")
                  (lit "laptop") (lit "u1") (lit "alice")
                  (initial example_config) eq_refl)).
Defined.

(** ** Ceremonies: symbolic runs *)

Lemma requests_app a b : requests (a ++ b) = requests a ++ requests b.
Proof. induction a as [|[] a IH]; simpl; by rewrite ?IH. Qed.

Lemma creations_app a b : creations (a ++ b) = creations a ++ creations b.
Proof. induction a as [|[] a IH]; simpl; by rewrite ?IH. Qed.

Lemma assertions_app a b : assertions (a ++ b) = assertions a ++ assertions b.
Proof. induction a as [|[] a IH]; simpl; by rewrite ?IH. Qed.

Lemma logged_errors_app a b :
  logged_errors (a ++ b) = logged_errors a ++ logged_errors b.
Proof. induction a as [|[] a IH]; simpl; by rewrite ?IH. Qed.

Lemma warnings_project ws :
  Forall is_warn ws ->
  requests ws = [] /\ creations ws = [] /\ assertions ws = []
  /\ logged_errors ws = [].
Proof. induction 1 as [|[] ws Hw _ IH]; simpl; done. Qed.

Local Arguments coerceToArrayBuffer : simpl never.
Local Arguments coerceToBase64Url : simpl never.
Local Arguments transcode_descriptors : simpl never.
Local Arguments lit : simpl never.

(** One step of a run: case analysis on the answer of the host, or on
    the outcome of a coercion. *)
Ltac exec_step P :=
  match goal with
  | H : forall o, credentials_create P o = _
    |- context [credentials_create P ?o] => rewrite (H o)
  | H : forall o, credentials_get P o = _
    |- context [credentials_get P ?o] => rewrite (H o)
  | |- context [coerceToArrayBuffer P ?v ?st] =>
      let ws := fresh "ws" in
      let Hws := fresh "Hws" in
      destruct (quiet_coerceToArrayBuffer P v st) as ([?|?] & ws & -> & Hws);
      apply warnings_project in Hws; destruct Hws as (? & ? & ? & ?)
  | |- context [transcode_descriptors P ?l ?st] =>
      let ws := fresh "ws" in
      let Hws := fresh "Hws" in
      destruct (quiet_transcode_descriptors P l st)
        as ([?|?] & ws & -> & Hws);
      apply warnings_project in Hws; destruct Hws as (? & ? & ? & ?)
  | |- context [coerceToBase64Url P (VUint8Array ?bs) ?st] =>
      let Hr := fresh "Hr" in
      destruct (coerceToBase64Url_Uint8Array P bs st) as ([?|?] & -> & Hr)
  | |- context [serialize (getClientExtensionResults ?c)] =>
      destruct (serialize (getClientExtensionResults c)) as [?|[?|]] eqn:?
  | |- context [register_begin P ?q] =>
      destruct (register_begin P q) as [?|[[?|?]]] eqn:?
  | |- context [register_complete P ?q] =>
      destruct (register_complete P q) as [?|[[?|?]]] eqn:?
  | |- context [signin_begin P ?q] =>
      destruct (signin_begin P q) as [?|[[?|?]]] eqn:?
  | |- context [signin_complete P ?q] =>
      destruct (signin_complete P q) as [?|[[?|?]]] eqn:?
  | |- context [credentials_create P ?o] =>
      destruct (credentials_create P o) as [?|[?|]] eqn:?
  | |- context [credentials_get P ?o] =>
      destruct (credentials_get P o) as [?|[?|]] eqn:?
  end.

Ltac norm :=
  repeat progress (
    unfold bind, ret, throw, try_catch, emit, this_config, of_result, fetch,
      navigator_credentials_create, navigator_credentials_get,
      console_error, createHeaders, registerBegin, registerComplete,
      signinBegin, signinComplete, JSON_stringify;
    cbv beta iota zeta;
    cbn [json config events fst snd log initial negb serialize prop]).

Ltac exec P := norm; repeat (exec_step P; norm).

(** Entering a ceremony on a supporting browser. *)
Ltac enter P H :=
  repeat match goal with m : SigninMethod |- _ => destruct m end;
  unfold run, signinWithId, signinWithAlias, signin, register,
    signin_try, register_try, assertBrowserSupported;
  rewrite ?H; exec P.

(** Reading the calls off a log. *)
Ltac project :=
  rewrite ?requests_app, ?creations_app, ?assertions_app, ?logged_errors_app;
  repeat match goal with
  | H : requests ?ws = [] |- context [requests ?ws] => rewrite H
  | H : creations ?ws = [] |- context [creations ?ws] => rewrite H
  | H : assertions ?ws = [] |- context [assertions ?ws] => rewrite H
  | H : logged_errors ?ws = [] |- context [logged_errors ?ws] => rewrite H
  end;
  cbn [requests creations assertions logged_errors app map url body].

(** ** Request bodies *)

(** C5: the body of the begin-signin request names exactly the selector
    of the entry point: [signinWithId] sends [userId] with the
    relying-party id and the origin and no [alias] property,
    [signinWithAlias] sends [alias] and no [userId] property. *)
Theorem signin_body_names_one_selector (P : Platform) (cfg : Config)
    (userId alias : jsstring) :
  isBrowserSupported P = true ->
  (exists q rest,
     requests (events (snd (run (signinWithId P userId) (initial cfg))))
       = q :: rest
     /\ url q = apiUrl cfg ++ lit "/signin/begin"
     /\ body q = VObject [prop "userId" (VString userId);
                          prop "RPID" (VString (rpid cfg));
                          prop "Origin" (VString (origin cfg))])
  /\ (exists q rest,
        requests (events (snd (run (signinWithAlias P alias) (initial cfg))))
          = q :: rest
        /\ url q = apiUrl cfg ++ lit "/signin/begin"
        /\ body q = VObject [prop "alias" (VString alias);
                             prop "RPID" (VString (rpid cfg));
                             prop "Origin" (VString (origin cfg))]).
Proof.
  intros H. split; enter P H; project; eexists _, _;
    (split; [reflexivity|split; reflexivity]).
Qed.

Lemma signin_body_names_one_selector_witness :
  isBrowserSupported example_platform = true
  /\ exists q rest,
       requests (events (snd (run (signinWithId example_platform (lit "u1"))
                                (initial example_config))))
         = q :: rest
       /\ url q = apiUrl example_config ++ lit "/signin/begin"
       /\ body q = VObject [prop "userId" (VString (lit "u1"));
                            prop "RPID" (VString (rpid example_config));
                            prop "Origin" (VString (origin example_config))].
Proof.
  split; [reflexivity|].
  exact (proj1 (signin_body_names_one_selector example_platform
                  example_config (lit "u1") (lit "alice") eq_refl)).
Defined.

(** ** Facts about the registration example *)

Lemma coerceToArrayBuffer_AQID (P : Platform) (st : State) :
  coerceToArrayBuffer P (VString (lit "AQID")) st = (inr [1; 2; 3], st).
Proof. reflexivity. Qed.

Lemma begin_url_is_not_complete_url (base : jsstring) :
  base ++ lit "/register/begin" <> base ++ lit "/register/complete".
Proof. intros E%app_inv_head. discriminate E. Qed.

(** C6, as the code has it: when [register] completes, it has sent the
    request to [/register/complete] last, the backend's answer to that
    request has been parsed, and the value [register] resolves to is
    [undefined]. *)
Theorem register_resolves_to_undefined (P : Platform) (cfg : Config)
    (token nick : jsstring) (v : value) :
  fst (run (register P token nick) (initial cfg)) = inr v ->
  v = VUndefined
  /\ exists q0 q resp parsed,
       requests (events (snd (run (register P token nick) (initial cfg))))
         = [q0; q]
       /\ url q = apiUrl cfg ++ lit "/register/complete"
       /\ register_complete P q = inr resp
       /\ json resp = inr parsed.
Proof.
  destruct (isBrowserSupported P) eqn:Hs;
    [|unfold run, register, assertBrowserSupported, bind; rewrite Hs;
      simpl; discriminate].
  enter P Hs; intros Hv; try discriminate Hv.
  all: inversion Hv; subst; (split; [reflexivity|]).
  all: project; eexists _, _, _, _.
  all: split; [reflexivity|]; split; [reflexivity|]; split; [eassumption|].
  all: reflexivity.
Qed.

Lemma register_resolves_to_undefined_witness :
  fst (run (register example_platform (lit "token") (lit "laptop"))
         (initial example_config)) = inr VUndefined
  /\ exists q0 q resp parsed,
       requests (events (snd (run (register example_platform (lit "token")
                                     (lit "laptop"))
                                (initial example_config))))
         = [q0; q]
       /\ url q = apiUrl example_config ++ lit "/register/complete"
       /\ register_complete example_platform q = inr resp
       /\ json resp = inr parsed.
Proof.
  split; [reflexivity|].
  exact (proj2 (register_resolves_to_undefined example_platform
                  example_config (lit "token") (lit "laptop") VUndefined
                  eq_refl)).
Defined.

(** C6 as stated fails: the backend answers the complete-register
    request with an object, [registerComplete] returns that object, and
    [register] resolves to [undefined] all the same. *)
Lemma register_discards_backend_response :
  fst (run (registerComplete example_platform example_attestation
              (lit "session-1") (lit "laptop")) (initial example_config))
  = inr (VObject [prop "registered" (VBoolean true)])
  /\ fst (run (register example_platform (lit "token") (lit "laptop"))
            (initial example_config))
     = inr VUndefined
  /\ fst (run (register example_platform (lit "token") (lit "laptop"))
            (initial example_config))
     <> inr (VObject [prop "registered" (VBoolean true)]).
Proof. split; [reflexivity|]. split; [reflexivity|]. discriminate. Qed.

(** ** Failures *)



(** C3, evaluated on the code: on a platform whose ceremonies resolve to
    no credential, neither ceremony issues a complete request.
    [register], once it has called [create], fails with its own
    no-credential error.  [signin], once it has called [get], fails
    differently: the error it logs and wraps is the TypeError the engine
    raises when [signinComplete] reads [response] of [null]. *)
Theorem no_credential_outcomes (P : Platform) (cfg : Config)
    (token nick : jsstring) (m : SigninMethod) :
  isBrowserSupported P = true ->
  (forall o, credentials_create P o = inr None) ->
  (forall o, credentials_get P o = inr None) ->
  let reg := run (register P token nick) (initial cfg) in
  let sgn := run (signin P m) (initial cfg) in
  (creations (events (snd reg)) <> [] ->
   logged_errors (events (snd reg))
     = [Error (lit "Failed to create credential (navigator.credentials.create)")]
   /\ fst reg
      = inl (Error (lit "Passwordless register failed: "
                    ++ lit "Failed to create credential (navigator.credentials.create)")))
  /\ map url (requests (events (snd reg)))
     = [apiUrl cfg ++ lit "/register/begin"]
  /\ (assertions (events (snd sgn)) <> [] ->
      logged_errors (events (snd sgn))
        = [TypeError (engine_message P (ReadPropertyOfNull "response"))]
      /\ fst sgn
         = inl (Error (lit "Passwordless signin failed: "
                       ++ engine_message P (ReadPropertyOfNull "response"))))
  /\ map url (requests (events (snd sgn)))
     = [apiUrl cfg ++ lit "/signin/begin"].
Proof.
  intros H Hcreate Hget. cbv zeta.
  split; [|split; [|split]]; enter P H; project;
    first [reflexivity | intros Hne; by (done || split)].
Qed.

Lemma no_credential_outcomes_witness :
  isBrowserSupported dismissing_platform = true
  /\ run (signin dismissing_platform (ByUserId (lit "u1")))
       (initial example_config)
     = (inl (Error (lit "Passwordless signin failed: "
                    ++ lit "Cannot read properties of null")),
        {| config := example_config;
           events :=
             [Fetch {| url := lit "https://v3.passwordless.dev/signin/begin";
                       method := lit "POST";
                       headers :=
                         [header "ApiKey" (lit "demo:public:key");
                          header "Content-Type" (lit "application/json")];
                       body := VObject [
                         prop "userId" (VString (lit "u1"));
                         prop "RPID" (VString (lit "app.example"));
                         prop "Origin" (VString (lit "https://app.example"))] |};
              CredentialsGet
                {| ro_challenge := VUint8Array [1; 2; 3];
                   ro_allowCredentials :=
                     Some [{| cred_id := VUint8Array [9; 8; 7; 255];
                              cred_other := VNull |}];
                   ro_other := VNull |};
              ConsoleError (TypeError (lit "Cannot read properties of null"))]
        |})
  /\ map url (requests (events (snd (run (signin dismissing_platform
                                            (ByUserId (lit "u1")))
                                       (initial example_config)))))
     = [apiUrl example_config ++ lit "/signin/begin"].
Proof.
  split; [reflexivity|]. split; [reflexivity|].
  exact (proj2 (proj2 (proj2
    (no_credential_outcomes dismissing_platform example_config
       (lit "token") (lit "laptop") (ByUserId (lit "u1")) eq_refl
       (fun _ => eq_refl) (fun _ => eq_refl))))).
Defined.

(** ** Configuration *)

(** C9: no public operation changes the configuration of the client;
    and every request of a ceremony, the begin request as the complete
    request, carries the relying-party id and the origin of that
    configuration. *)
Theorem configuration_is_read_only (P : Platform) (cfg : Config) (st : State)
    (token nick userId alias : jsstring) :
  (config (snd (run (register P token nick) st)) = config st
   /\ config (snd (run (signinWithId P userId) st)) = config st
   /\ config (snd (run (signinWithAlias P alias) st)) = config st)
  /\ Forall (carries_party cfg)
       (requests (events (snd (run (register P token nick) (initial cfg)))))
  /\ Forall (carries_party cfg)
       (requests (events (snd (run (signinWithId P userId) (initial cfg)))))
  /\ Forall (carries_party cfg)
       (requests (events (snd (run (signinWithAlias P alias) (initial cfg))))).
Proof.
  unfold carries_party.
  destruct (isBrowserSupported P) eqn:Hs.
  - split; [split; [|split]|split; [|split]]; enter P Hs;
      first [reflexivity | project; repeat constructor].
  - unfold run, signinWithId, signinWithAlias, signin, register,
      assertBrowserSupported, bind.
    rewrite Hs. simpl. repeat split; constructor.
Qed.

(** * Further properties of the transcoder *)

(** ** Helper facts *)

Lemma in_alphabet_index_of c : ~ Base64.in_alphabet c -> Base64.index_of c = None.
Proof.
  unfold Base64.in_alphabet. destruct (Base64.index_of c); [|done].
  intros H. destruct H. eauto.
Qed.

Lemma std_char_fixes c : c <> ch_minus -> c <> ch_underscore -> std_char c = c.
Proof.
  unfold std_char, ch_minus, ch_underscore, ch_plus, ch_slash.
  intros. cbv zeta. repeat case_eqb; lia.
Qed.

Lemma std_char_whitespace c :
  Base64.is_whitespace (std_char c) = Base64.is_whitespace c.
Proof.
  unfold Base64.is_whitespace, std_char, ch_minus, ch_underscore, ch_plus,
    ch_slash.
  cbv zeta. repeat case_eqb; try reflexivity; lia.
Qed.

Lemma In_strip_padding c l :
  In c l -> c <> ch_eq -> In c (Base64.strip_padding l).
Proof.
  intros Hin Hc. unfold Base64.strip_padding.
  apply in_rev in Hin.
  destruct (rev l) as [|x [|y r]] eqn:E; [done| |].
  - destruct Hin as [->|[]]. destruct (Z.eqb_spec c ch_eq); [done|].
    apply in_rev. rewrite E. by left.
  - assert (In c l -> In c l) as _ by done.
    destruct (Z.eqb_spec x ch_eq) as [->|Hx].
    + destruct Hin as [Hin|Hin]; [by subst|].
      destruct (Z.eqb_spec y ch_eq) as [->|Hy].
      * destruct Hin as [Hin|Hin]; [by subst|]. by apply in_rev in Hin.
      * apply in_rev. by rewrite rev_involutive.
    + apply in_rev. rewrite E. exact Hin.
Qed.

Lemma mapM_index_of_None l c :
  In c l -> Base64.index_of c = None -> mapM Base64.index_of l = None.
Proof.
  intros Hin Hc. induction l as [|x l IH]; [done|].
  simpl. destruct Hin as [->|Hin].
  - by rewrite Hc.
  - rewrite (IH Hin). by destruct (Base64.index_of x).
Qed.

Lemma In_filter_whitespace c l :
  In c l -> Base64.is_whitespace c = false ->
  In c (filter (fun c => Base64.is_whitespace c = false) l).
Proof.
  intros Hin Hc. apply list_elem_of_In, list_elem_of_filter.
  split; [done|]. by apply list_elem_of_In.
Qed.

Lemma filter_no_whitespace (l : list Z) :
  Forall (fun c => Base64.is_whitespace c = false) l ->
  filter (fun c => Base64.is_whitespace c = false) l = l.
Proof.
  induction 1 as [|c l Hc _ IH]; [done|].
  by rewrite filter_cons_True, IH.
Qed.

Lemma alphabet_no_whitespace c :
  Base64.in_alphabet c -> Base64.is_whitespace c = false.
Proof.
  intros Hc%Base64Facts.in_alphabet_cases. unfold Base64.is_whitespace.
  repeat case_eqb; try reflexivity; lia.
Qed.

Lemma url_safe_std_char c : is_url_safe c -> Base64.in_alphabet (std_char c).
Proof.
  unfold is_url_safe, Base64.in_alphabet, Base64.index_of, std_char,
    ch_minus, ch_underscore, ch_plus, ch_slash.
  intros Hc. cbv zeta.
  repeat case_eqb;
    repeat match goal with
    | |- context [?a <=? ?b] => destruct (Z.leb_spec a b); cbn
    end; eauto; lia.
Qed.

Lemma url_char_of_url_safe v : is_sextet v -> is_url_safe (Base64.url_char_of v).
Proof.
  unfold is_sextet, is_url_safe, Base64.url_char_of. intros Hv.
  repeat case_eqb; lia.
Qed.

Lemma encode_values_count bs :
  length (Base64.encode_values bs) = ((4 * length bs + 2) / 3)%nat.
Proof.
  induction bs as [|a|a b|a b c l IH] using Base64Facts.list_ind3;
    try reflexivity.
  change (length (Base64.encode_values (a :: b :: c :: l)))
    with (4 + length (Base64.encode_values l))%nat.
  rewrite IH. cbn [length].
  replace (4 * S (S (S (length l))) + 2)%nat
    with (4 * 3 + (4 * length l + 2))%nat by lia.
  by rewrite Nat.div_add_l.
Qed.

Lemma encode_padding_block bs :
  ((length (Base64.encode_values bs) + Base64.padding bs) mod 4 = 0)%nat
  /\ (Base64.padding bs <= 2)%nat.
Proof.
  induction bs as [|a|a b|a b c l [IH1 IH2]] using Base64Facts.list_ind3;
    try (split; [reflexivity|simpl; lia]).
  change (length (Base64.encode_values (a :: b :: c :: l)))
    with (4 + length (Base64.encode_values l))%nat.
  change (Base64.padding (a :: b :: c :: l)) with (Base64.padding l).
  split; [|done].
  replace (4 + length (Base64.encode_values l) + Base64.padding l)%nat
    with (length (Base64.encode_values l) + Base64.padding l + 1 * 4)%nat
    by lia.
  by rewrite Nat.Div0.mod_add.
Qed.

Lemma strip_padding_block (l : list Z) (k : nat) :
  Forall Base64.in_alphabet l -> (k <= 2)%nat ->
  Base64.strip_padding (l ++ replicate k ch_eq) = l.
Proof.
  intros Hl Hk.
  destruct k as [|[|[|k]]]; [| | |lia].
  - rewrite app_nil_r. by apply strip_padding_alphabet.
  - unfold Base64.strip_padding. rewrite rev_app_distr.
    change (rev (replicate 1 ch_eq)) with [ch_eq]. cbn [app].
    apply Forall_rev in Hl.
    destruct (rev l) as [|y r] eqn:E.
    + apply (f_equal (@rev Z)) in E. rewrite rev_involutive in E.
      subst. by rewrite Z.eqb_refl.
    + inversion_clear Hl as [|? ? Hy%Base64Facts.in_alphabet_cases _].
      rewrite Z.eqb_refl.
      destruct (Z.eqb_spec y ch_eq) as [Hy'|_];
        [unfold ch_eq in Hy'; lia|].
      by rewrite <- E, rev_involutive.
  - unfold Base64.strip_padding. rewrite rev_app_distr.
    change (rev (replicate 2 ch_eq)) with [ch_eq; ch_eq]. cbn [app].
    rewrite Z.eqb_refl. apply rev_involutive.
Qed.

Lemma last_rev {A} (m : list A) : last (rev m) = head m.
Proof. destruct m as [|x m]; [done|]. simpl. apply last_snoc. Qed.

Lemma head_drop_leading e m : head (drop_leading e m) <> Some e.
Proof.
  induction m as [|x m IH]; [done|].
  simpl. destruct (Z.eqb_spec x e); [done|]. simpl. congruence.
Qed.

Lemma Forall_drop_leading (Q : Z -> Prop) e m :
  Forall Q m -> Forall Q (drop_leading e m).
Proof.
  induction 1 as [|x m Hx Hm IH]; [constructor|].
  simpl. destruct (x =? e); [done|by constructor].
Qed.

Lemma strip_trailing_nothing e l : last l <> Some e -> strip_trailing e l = l.
Proof.
  intros Hl. unfold strip_trailing.
  rewrite <- (rev_involutive l) in Hl. rewrite last_rev in Hl.
  destruct (rev l) as [|x m] eqn:E.
  - simpl. apply (f_equal (@rev Z)) in E. by rewrite rev_involutive in E.
  - simpl in *. destruct (Z.eqb_spec x e); [congruence|].
    by rewrite <- E, rev_involutive.
Qed.

Lemma coerceToBase64Url_array P elems st :
  coerceToBase64Url P (VArray elems) st
  = match Uint8Array_from P elems st with
    | (inr a, st') => coerceToBase64Url P (VUint8Array a) st'
    | (inl e, st') => (inl e, st')
    end.
Proof. reflexivity. Qed.

Lemma Uint8Array_from_fault P elems f st :
  first_fault elems = Some f ->
  Uint8Array_from P elems st = (inl (TypeError (engine_message P f)), st).
Proof.
  unfold Uint8Array_from.
  induction elems as [|e elems IH]; [done|].
  intros Hf. cbn [forEach]. unfold bind at 1.
  destruct e; simpl in Hf; try (inversion Hf; subst; reflexivity);
    cbn [ToNumber]; unfold ret at 1; unfold bind at 1;
    by rewrite (IH Hf).
Qed.

(** ** What the decoder refuses *)

(** Handed anything but a string, [coerceToArrayBuffer] writes one
    warning that shows the value and raises the TypeError "Could not
    coerce to ArrayBuffer"; binary values are refused like the rest, so
    a field that is already decoded cannot be decoded again. *)
Theorem decoder_rejects_non_strings (P : Platform) (v : value) (st : State) :
  (forall s, v <> VString s) ->
  run (coerceToArrayBuffer P v) st
  = (inl (TypeError (lit "Could not coerce to ArrayBuffer")),
     log st [ConsoleWarn (lit "Could not coerce to string:") v]).
Proof. intros Hv. destruct v; try reflexivity. by destruct (Hv s). Qed.

Lemma decoder_rejects_non_strings_witness :
  (forall s, VUint8Array [1; 2; 3] <> VString s)
  /\ run (coerceToArrayBuffer example_platform (VUint8Array [1; 2; 3]))
       (initial example_config)
     = (inl (TypeError (lit "Could not coerce to ArrayBuffer")),
        log (initial example_config)
          [ConsoleWarn (lit "Could not coerce to string:")
             (VUint8Array [1; 2; 3])]).
Proof.
  assert (forall s, VUint8Array [1; 2; 3] <> VString s) as H by discriminate.
  split; [exact H|].
  exact (decoder_rejects_non_strings example_platform _
           (initial example_config) H).
Defined.

(** X1: a text that holds a character outside both alphabets, other than
    [=] and ASCII whitespace, is refused: the call fails with the
    InvalidCharacterError of [atob] and logs nothing. *)
Theorem decoder_rejects_foreign_character (P : Platform) (s : jsstring)
    (c : Z) (st : State) :
  In c s ->
  ~ Base64.in_alphabet c -> c <> ch_minus -> c <> ch_underscore ->
  c <> ch_eq -> Base64.is_whitespace c = false ->
  run (coerceToArrayBuffer P (VString s)) st
  = (inl (DOMException "InvalidCharacterError"
            (engine_message P InvalidCharacter)), st).
Proof.
  intros Hin Halpha Hminus Hunder Heq Hws.
  rewrite coerceToArrayBuffer_string, base64UrlToBase64_map.
  assert (atob (map std_char s) = None) as ->; [|reflexivity].
  assert (In c (map std_char s)) as Hin'.
  { apply in_map_iff. exists c. split; [|done]. by apply std_char_fixes. }
  unfold atob, Base64.forgiving_decode.
  pose proof (In_filter_whitespace c _ Hin' Hws) as Hd.
  set (d := filter _ (map std_char s)) in *.
  assert (In c (if Z.of_nat (length d) mod 4 =? 0
                then Base64.strip_padding d else d)) as Hd'.
  { destruct (_ =? 0); [|done]. by apply In_strip_padding. }
  destruct (_ =? 1); [done|].
  by rewrite (mapM_index_of_None _ c Hd' (in_alphabet_index_of c Halpha)).
Qed.

Lemma decoder_rejects_foreign_character_witness :
  In 33 (lit "AQ!D")
  /\ run (coerceToArrayBuffer example_platform (VString (lit "AQ!D")))
       (initial example_config)
     = (inl (DOMException "InvalidCharacterError"
               (engine_message example_platform InvalidCharacter)),
        initial example_config).
Proof.
  assert (In 33 (lit "AQ!D")) as H by (right; right; left; reflexivity).
  split; [exact H|].
  apply (decoder_rejects_foreign_character example_platform (lit "AQ!D") 33
           (initial example_config) H).
  - intros [v Hv]. discriminate Hv.
  - discriminate.
  - discriminate.
  - discriminate.
  - reflexivity.
Defined.

(** X2: a text of URL-safe characters whose length is one more than a
    multiple of four encodes no byte sequence, and is refused with the
    InvalidCharacterError of [atob]. *)
Theorem decoder_rejects_dangling_character (P : Platform) (s : jsstring)
    (st : State) :
  Forall is_url_safe s -> (length s mod 4 = 1)%nat ->
  run (coerceToArrayBuffer P (VString s)) st
  = (inl (DOMException "InvalidCharacterError"
            (engine_message P InvalidCharacter)), st).
Proof.
  intros Hs Hlen.
  rewrite coerceToArrayBuffer_string, base64UrlToBase64_map.
  assert (atob (map std_char s) = None) as ->; [|reflexivity].
  unfold atob, Base64.forgiving_decode.
  rewrite filter_whitespace_alphabet.
  2:{ clear Hlen. induction Hs; simpl; constructor;
        auto using url_safe_std_char. }
  rewrite length_map.
  assert (Z.of_nat (length s) mod 4 = 1) as E.
  { change 4 with (Z.of_nat 4). rewrite <- Nat2Z.inj_mod. by rewrite Hlen. }
  rewrite E. cbn [Z.eqb Pos.eqb]. rewrite length_map, E. reflexivity.
Qed.

Lemma decoder_rejects_dangling_character_witness :
  Forall is_url_safe (lit "AQIDA")
  /\ run (coerceToArrayBuffer example_platform (VString (lit "AQIDA")))
       (initial example_config)
     = (inl (DOMException "InvalidCharacterError"
               (engine_message example_platform InvalidCharacter)),
        initial example_config).
Proof.
  assert (Forall is_url_safe (lit "AQIDA")) as H
    by (repeat constructor; unfold is_url_safe; cbn; lia).
  split; [exact H|].
  exact (decoder_rejects_dangling_character example_platform (lit "AQIDA")
           (initial example_config) H eq_refl).
Defined.

(** ** What the decoder tolerates *)

(** X3: the decoder also reads the padded, standard-alphabet text that
    [btoa] writes: decoding [btoa] of a byte sequence gives the byte
    sequence back. *)
Theorem decoder_accepts_padded_base64 (P : Platform) (bs : list Z)
    (st : State) :
  Forall is_byte bs ->
  exists t, btoa bs = Some t
    /\ run (coerceToArrayBuffer P (VString t)) st = (inr bs, st).
Proof.
  intros Hbs. exists (Base64.encode bs). split; [by apply btoa_bytes|].
  rewrite coerceToArrayBuffer_string, base64UrlToBase64_map.
  pose proof (Base64Facts.encode_values_sextets bs Hbs) as Hvs.
  assert (Forall Base64.in_alphabet
            (map Base64.char_of (Base64.encode_values bs))) as Halpha.
  { induction Hvs; simpl; constructor;
      auto using Base64Facts.char_of_in_alphabet. }
  destruct (encode_padding_block bs) as [Hblock Hpad].
  assert (map std_char (Base64.encode bs) = Base64.encode bs) as ->.
  { rewrite Base64Facts.encode_split, map_app. f_equal.
    - clear Hblock. induction Halpha as [|c l Hc _ IH]; simpl; [done|].
      by rewrite IH, std_char_alphabet.
    - clear. induction (Base64.padding bs); simpl; [done|]. by f_equal. }
  unfold atob, Base64.forgiving_decode.
  rewrite Base64Facts.encode_split, filter_no_whitespace.
  2:{ apply Forall_app. split.
      - eapply Forall_impl; [exact Halpha|]. apply alphabet_no_whitespace.
      - clear. induction (Base64.padding bs); simpl; by constructor. }
  assert (Z.of_nat (length (map Base64.char_of (Base64.encode_values bs)
                            ++ replicate (Base64.padding bs) ch_eq))
          mod 4 = 0) as E.
  { rewrite length_app, length_map, length_replicate.
    change 4 with (Z.of_nat 4). rewrite <- Nat2Z.inj_mod. by rewrite Hblock. }
  rewrite E. cbn [Z.eqb]. rewrite strip_padding_block by done.
  rewrite length_map.
  assert ((Z.of_nat (length (Base64.encode_values bs)) mod 4 =? 1) = false)
    as ->.
  { apply Z.eqb_neq. intros E1.
    apply (Base64Facts.encode_values_length bs).
    apply Nat2Z.inj. by rewrite Nat2Z.inj_mod. }
  rewrite mapM_index_of by done. cbn.
  rewrite Base64Facts.decode_encode_values by done.
  by rewrite map_mod_bytes by (done || lia).
Qed.

Lemma decoder_accepts_padded_base64_witness :
  Forall is_byte [255; 254]
  /\ exists t, btoa [255; 254] = Some t
       /\ run (coerceToArrayBuffer example_platform (VString t))
            (initial example_config)
          = (inr [255; 254], initial example_config).
Proof.
  assert (Forall is_byte [255; 254]) as H
    by (repeat constructor; unfold is_byte; lia).
  split; [exact H|].
  exact (decoder_accepts_padded_base64 example_platform [255; 254]
           (initial example_config) H).
Defined.

(** X4: ASCII whitespace in the text does not count: a text decodes as
    the text without its tabs, line feeds, form feeds, carriage returns
    and spaces does. *)
Theorem decoder_ignores_whitespace (P : Platform) (s : jsstring) (st : State) :
  run (coerceToArrayBuffer P (VString s)) st
  = run (coerceToArrayBuffer P
           (VString (filter (fun c => Base64.is_whitespace c = false) s))) st.
Proof.
  rewrite !coerceToArrayBuffer_string, !base64UrlToBase64_map.
  assert (atob (map std_char s)
          = atob (map std_char
                    (filter (fun c => Base64.is_whitespace c = false) s)))
    as ->; [|reflexivity].
  unfold atob, Base64.forgiving_decode.
  assert (filter (fun c => Base64.is_whitespace c = false) (map std_char s)
          = filter (fun c => Base64.is_whitespace c = false)
              (map std_char
                 (filter (fun c => Base64.is_whitespace c = false) s)))
    as ->; [|reflexivity].
  induction s as [|c s IH]; [done|].
  cbn [map]. rewrite (filter_cons _ c s).
  destruct (decide (Base64.is_whitespace c = false)) as [Hc|Hc].
  - cbn [map]. rewrite !filter_cons. destruct (decide _); by rewrite IH.
  - rewrite filter_cons.
    rewrite decide_False by (by rewrite std_char_whitespace). exact IH.
Qed.

(** X5: what the decoder returns is a byte array, the state is as it
    was, and the bytes survive a second trip: encoding them and decoding
    the result gives the same bytes, also when the text decoded first
    was padded, standard or spaced. *)
Theorem decoder_yields_bytes (P : Platform) (v : value) (B : list Z)
    (st st' : State) :
  run (coerceToArrayBuffer P v) st = (inr B, st') ->
  st' = st /\ Forall is_byte B
  /\ exists t,
       run (coerceToBase64Url P (VUint8Array B)) st = (inr t, st)
       /\ run (coerceToArrayBuffer P (VString t)) st = (inr B, st).
Proof.
  intros H.
  destruct v; try discriminate H.
  rewrite coerceToArrayBuffer_string in H.
  destruct (atob (base64UrlToBase64 s)) as [string|]; [|discriminate H].
  inversion H; subst. split; [reflexivity|].
  assert (Forall is_byte (map (fun c => c mod 256) string)) as HB.
  { clear. induction string; simpl; constructor; [|done].
    unfold is_byte. apply Z.mod_pos_bound. lia. }
  split; [exact HB|].
  eexists. split; [by apply coerceToBase64Url_bytes|].
  rewrite coerceToArrayBuffer_string, atob_base64_url by done.
  by rewrite map_mod_bytes by (done || lia).
Qed.

Lemma decoder_yields_bytes_witness :
  run (coerceToArrayBuffer example_platform (VString (lit "/w= =")))
    (initial example_config) = (inr [255], initial example_config)
  /\ exists t,
       run (coerceToBase64Url example_platform (VUint8Array [255]))
         (initial example_config) = (inr t, initial example_config)
       /\ run (coerceToArrayBuffer example_platform (VString t))
            (initial example_config) = (inr [255], initial example_config).
Proof.
  assert (run (coerceToArrayBuffer example_platform (VString (lit "/w= =")))
            (initial example_config) = (inr [255], initial example_config))
    as H by reflexivity.
  split; [exact H|].
  exact (proj2 (proj2 (decoder_yields_bytes example_platform _ _ _ _ H))).
Defined.

(** ** The encoder *)

(** X6: the encoder is injective on byte arrays: two byte sequences with
    the same encoding are the same sequence. *)
Theorem encoder_is_injective (P : Platform) (B1 B2 : list Z) (st : State) :
  Forall is_byte B1 -> Forall is_byte B2 ->
  run (coerceToBase64Url P (VUint8Array B1)) st
  = run (coerceToBase64Url P (VUint8Array B2)) st ->
  B1 = B2.
Proof.
  intros H1 H2. rewrite !coerceToBase64Url_bytes by done. intros E.
  assert (atob (base64UrlToBase64 (base64ToBase64Url (Base64.encode B1)))
          = atob (base64UrlToBase64 (base64ToBase64Url (Base64.encode B2))))
    as E' by congruence.
  rewrite !atob_base64_url in E' by done. congruence.
Qed.

Lemma encoder_is_injective_witness :
  Forall is_byte [1; 2; 3] /\ [1; 2; 3] = [1; 2; 3].
Proof.
  assert (Forall is_byte [1; 2; 3]) as H
    by (repeat constructor; unfold is_byte; lia).
  split; [exact H|].
  exact (encoder_is_injective example_platform [1; 2; 3] [1; 2; 3]
           (initial example_config) H H eq_refl).
Defined.

(** X7: the encoding of [n] bytes consists of letters, digits, [-] and
    [_] only and is [(4 n + 2) / 3] characters long: four characters for
    every three bytes, two or three for a rest of one or two bytes, and
    no padding. *)
Theorem encoder_output_shape (P : Platform) (bs : list Z) (st : State) :
  Forall is_byte bs ->
  exists t,
    run (coerceToBase64Url P (VUint8Array bs)) st = (inr t, st)
    /\ Forall is_url_safe t
    /\ length t = ((4 * length bs + 2) / 3)%nat.
Proof.
  intros Hbs. exists (Base64.encode_url bs). split; [|split].
  - rewrite coerceToBase64Url_bytes by done.
    by rewrite base64ToBase64Url_encode_url.
  - apply Base64Facts.encode_values_sextets in Hbs.
    unfold Base64.encode_url.
    induction Hbs; simpl; constructor; auto using url_char_of_url_safe.
  - unfold Base64.encode_url. by rewrite length_map, encode_values_count.
Qed.

Lemma encoder_output_shape_witness :
  Forall is_byte [9; 8; 7; 255]
  /\ exists t,
       run (coerceToBase64Url example_platform (VUint8Array [9; 8; 7; 255]))
         (initial example_config) = (inr t, initial example_config)
       /\ Forall is_url_safe t
       /\ length t = 6%nat.
Proof.
  assert (Forall is_byte [9; 8; 7; 255]) as H
    by (repeat constructor; unfold is_byte; lia).
  split; [exact H|].
  exact (encoder_output_shape example_platform [9; 8; 7; 255]
           (initial example_config) H).
Defined.

(** X8: the three kinds of input the encoder accepts agree: a plain
    array of byte values, an [ArrayBuffer] and a [Uint8Array] holding the
    same bytes have the same encoding. *)
Theorem encoder_agrees_on_input_kinds (P : Platform) (bs : list Z)
    (st : State) :
  Forall is_byte bs ->
  run (coerceToBase64Url P (VArray (map (fun b => ENumber (NInt b)) bs))) st
  = run (coerceToBase64Url P (VUint8Array bs)) st
  /\ run (coerceToBase64Url P (VArrayBuffer bs)) st
     = run (coerceToBase64Url P (VUint8Array bs)) st.
Proof.
  intros Hbs. split; [|reflexivity].
  unfold run. rewrite coerceToBase64Url_array, Uint8Array_from_convertible.
  - rewrite map_map. cbn [byte_of_element].
    by rewrite map_mod_bytes by (done || lia).
  - clear. induction bs; simpl; by constructor.
Qed.

Lemma encoder_agrees_on_input_kinds_witness :
  Forall is_byte [1; 2; 3]
  /\ run (coerceToBase64Url example_platform
            (VArray [ENumber (NInt 1); ENumber (NInt 2); ENumber (NInt 3)]))
       (initial example_config)
     = run (coerceToBase64Url example_platform (VUint8Array [1; 2; 3]))
         (initial example_config).
Proof.
  assert (Forall is_byte [1; 2; 3]) as H
    by (repeat constructor; unfold is_byte; lia).
  split; [exact H|].
  exact (proj1 (encoder_agrees_on_input_kinds example_platform [1; 2; 3]
                  (initial example_config) H)).
Defined.

(** X9: a plain array that holds a Symbol or a BigInt makes the encoder
    fail with the TypeError of the first such element; nothing is logged
    and nothing is encoded. *)
Theorem encoder_fails_on_first_refused_element (P : Platform)
    (elems : list element) (f : EngineFault) (st : State) :
  first_fault elems = Some f ->
  run (coerceToBase64Url P (VArray elems)) st
  = (inl (TypeError (engine_message P f)), st).
Proof.
  intros Hf. unfold run.
  by rewrite coerceToBase64Url_array, (Uint8Array_from_fault P elems f st Hf).
Qed.

Lemma encoder_fails_on_first_refused_element_witness :
  first_fault [ENumber (NInt 7); EBigInt 1; ESymbol] = Some BigIntToNumber
  /\ run (coerceToBase64Url example_platform
            (VArray [ENumber (NInt 7); EBigInt 1; ESymbol]))
       (initial example_config)
     = (inl (TypeError (engine_message example_platform BigIntToNumber)),
        initial example_config).
Proof.
  split; [reflexivity|].
  exact (encoder_fails_on_first_refused_element example_platform
           [ENumber (NInt 7); EBigInt 1; ESymbol] BigIntToNumber
           (initial example_config) eq_refl).
Defined.

(** Handed a value that is neither a plain array, an [ArrayBuffer]
    nor a [Uint8Array] (a string, a number, an object), the encoder
    writes one warning that shows the value and raises the Error "Could
    not coerce to string". *)
Theorem encoder_rejects_other_types (P : Platform) (v : value) (st : State) :
  (forall l, v <> VArray l) -> (forall b, v <> VArrayBuffer b) ->
  (forall b, v <> VUint8Array b) ->
  run (coerceToBase64Url P v) st
  = (inl (Error (lit "Could not coerce to string")),
     log st [ConsoleWarn (lit "Could not coerce to string:") v]).
Proof.
  intros Ha Hb Hu. destruct v; try reflexivity.
  - by destruct (Ha elems).
  - by destruct (Hb bytes).
  - by destruct (Hu bytes).
Qed.

Lemma encoder_rejects_other_types_witness :
  (forall l, VString (lit "AQID") <> VArray l)
  /\ run (coerceToBase64Url example_platform (VString (lit "AQID")))
       (initial example_config)
     = (inl (Error (lit "Could not coerce to string")),
        log (initial example_config)
          [ConsoleWarn (lit "Could not coerce to string:")
             (VString (lit "AQID"))]).
Proof.
  assert (forall l, VString (lit "AQID") <> VArray l) as H by discriminate.
  split; [exact H|].
  apply (encoder_rejects_other_types example_platform _
           (initial example_config) H); discriminate.
Defined.

(** ** The two alphabet translations *)

(** X10: whatever the text, [base64ToBase64Url] leaves no [+] and no [/]
    in it and no [=] at its end, and [base64UrlToBase64] leaves no [-]
    and no [_] and keeps the length. *)
Theorem translations_clear_their_characters (s : jsstring) :
  (Forall (fun c => c <> ch_plus /\ c <> ch_slash) (base64ToBase64Url s)
   /\ last (base64ToBase64Url s) <> Some ch_eq)
  /\ Forall (fun c => c <> ch_minus /\ c <> ch_underscore)
       (base64UrlToBase64 s)
  /\ length (base64UrlToBase64 s) = length s.
Proof.
  split; [split|split].
  - unfold base64ToBase64Url, strip_trailing.
    apply Forall_rev, Forall_drop_leading, Forall_rev.
    unfold replace_all. rewrite map_map.
    induction s as [|c s IH]; simpl; constructor; [|done].
    unfold ch_plus, ch_minus, ch_slash, ch_underscore.
    repeat case_eqb; lia.
  - unfold base64ToBase64Url, strip_trailing. rewrite last_rev.
    apply head_drop_leading.
  - rewrite base64UrlToBase64_map.
    induction s as [|c s IH]; simpl; constructor; [|done].
    unfold std_char, ch_plus, ch_minus, ch_slash, ch_underscore.
    cbv zeta. repeat case_eqb; lia.
  - rewrite base64UrlToBase64_map. apply length_map.
Qed.

(** X11: on a standard-alphabet text without padding, that is one with
    no [-], no [_] and no [=] at its end, [base64UrlToBase64] undoes
    [base64ToBase64Url]. *)
Theorem base64UrlToBase64_undoes_base64ToBase64Url (s : jsstring) :
  Forall (fun c => c <> ch_minus /\ c <> ch_underscore) s ->
  last s <> Some ch_eq ->
  base64UrlToBase64 (base64ToBase64Url s) = s.
Proof.
  intros Hs Hlast. unfold base64ToBase64Url.
  assert (replace_all ch_slash ch_underscore (replace_all ch_plus ch_minus s)
          = map url_char s) as ->.
  { unfold replace_all. by rewrite map_map. }
  rewrite strip_trailing_nothing.
  - rewrite base64UrlToBase64_map, map_map.
    induction Hs as [|c s [Hm Hu] _ IH]; simpl; [done|].
    rewrite IH.
    + f_equal. revert Hm Hu.
      unfold std_char, url_char, ch_plus, ch_minus, ch_slash, ch_underscore.
      intros. cbv zeta. repeat case_eqb; lia.
    + intros E. apply Hlast. destruct s; [discriminate E|exact E].
  - rewrite <- (rev_involutive s) in Hlast |- *.
    rewrite map_rev, last_rev. rewrite last_rev in Hlast.
    destruct (rev s) as [|c r]; [done|]. simpl in *.
    intros E. apply Hlast. f_equal. inversion E as [E'].
    revert E'. unfold url_char, ch_plus, ch_minus, ch_slash, ch_underscore,
      ch_eq.
    cbv zeta. repeat case_eqb; lia.
Qed.

Lemma base64UrlToBase64_undoes_base64ToBase64Url_witness :
  Forall (fun c => c <> ch_minus /\ c <> ch_underscore) (lit "+/8A")
  /\ base64UrlToBase64 (base64ToBase64Url (lit "+/8A")) = lit "+/8A".
Proof.
  assert (Forall (fun c => c <> ch_minus /\ c <> ch_underscore) (lit "+/8A"))
    as H by (repeat constructor; discriminate).
  split; [exact H|].
  apply (base64UrlToBase64_undoes_base64ToBase64Url (lit "+/8A") H).
  discriminate.
Defined.

(** * Further properties of the ceremonies *)

(** ** Transcoding as a function of the options *)

Lemma coerceToArrayBuffer_decode (P : Platform) (v : value) (st : State) :
  match decode_text v with
  | Some b => coerceToArrayBuffer P v st = (inr b, st)
  | None =>
      exists e ws,
        coerceToArrayBuffer P v st = (inl e, log st ws) /\ Forall is_warn ws
  end.
Proof.
  destruct v;
    try (cbn [decode_text]; eexists _, [_]; split;
         [reflexivity|by repeat constructor]).
  pose proof (coerceToArrayBuffer_string P s st) as E. unfold run in E.
  cbn [decode_text]. rewrite E.
  destruct (atob (base64UrlToBase64 s)); [reflexivity|].
  eexists _, []. by rewrite log_nil.
Qed.

Lemma forEach_transcode_descriptor (P : Platform)
    (ds : list CredentialDescriptor) (st : State) :
  match mapM decode_descriptor ds with
  | Some ds' => forEach (transcode_descriptor P) ds st = (inr ds', st)
  | None =>
      exists e ws,
        forEach (transcode_descriptor P) ds st = (inl e, log st ws)
        /\ Forall is_warn ws
  end.
Proof.
  induction ds as [|d ds IH]; [reflexivity|].
  assert (mapM decode_descriptor (d :: ds)
          = match decode_text (cred_id d) with
            | Some b =>
                match mapM decode_descriptor ds with
                | Some k =>
                    Some ({| cred_id := VUint8Array b;
                             cred_other := cred_other d |} :: k)
                | None => None
                end
            | None => None
            end) as ->.
  { cbn [mapM]. unfold decode_descriptor.
    destruct (decode_text (cred_id d)); [|reflexivity].
    cbn [mbind option_bind]. by destruct (mapM _ ds). }
  assert (forEach (transcode_descriptor P) (d :: ds) st
          = match coerceToArrayBuffer P (cred_id d) st with
            | (inr b, st') =>
                match forEach (transcode_descriptor P) ds st' with
                | (inr k, st'') =>
                    (inr ({| cred_id := VUint8Array b;
                             cred_other := cred_other d |} :: k), st'')
                | (inl e, st'') => (inl e, st'')
                end
            | (inl e, st') => (inl e, st')
            end) as ->.
  { cbn [forEach]. unfold transcode_descriptor at 1. unfold bind, ret.
    destruct (coerceToArrayBuffer P (cred_id d) st) as [[e|b] st'];
      [reflexivity|].
    by destruct (forEach _ ds st') as [[e|k] st'']. }
  pose proof (coerceToArrayBuffer_decode P (cred_id d) st) as Hd.
  destruct (decode_text (cred_id d)) as [b|].
  - rewrite Hd.
    destruct (mapM decode_descriptor ds) as [ds'|].
    + by rewrite IH.
    + destruct IH as (e & ws & -> & Hws). by exists e, ws.
  - destruct Hd as (e & ws & -> & Hws). by exists e, ws.
Qed.

Lemma transcode_descriptors_decode (P : Platform)
    (l : option (list CredentialDescriptor)) (st : State) :
  match decode_descriptors l with
  | Some l' => transcode_descriptors P l st = (inr l', st)
  | None =>
      exists e ws,
        transcode_descriptors P l st = (inl e, log st ws)
        /\ Forall is_warn ws
  end.
Proof.
  destruct l as [ds|]; [|reflexivity].
  unfold decode_descriptors, transcode_descriptors, bind.
  pose proof (forEach_transcode_descriptor P ds st) as H.
  destruct (mapM decode_descriptor ds) as [ds'|].
  - by rewrite H.
  - destruct H as (e & ws & -> & Hws). by exists e, ws.
Qed.

Lemma wf_credential_buffers (c : PublicKeyCredential) :
  wf_credential c ->
  Forall is_byte (rawId c)
  /\ Forall is_byte (Uint8Array_of_buffer (clientDataJSON (response c)))
  /\ Forall is_byte (Uint8Array_of_buffer (attestationObject (response c)))
  /\ Forall is_byte (Uint8Array_of_buffer (authenticatorData (response c)))
  /\ Forall is_byte (Uint8Array_of_buffer (signature (response c))).
Proof.
  intros [Hraw Hresp]. split; [exact Hraw|].
  destruct (response c); simpl; intuition constructor.
Qed.

(** A step that decides a decoding by the reference functions, and that
    uses what is assumed of the backend. *)
Ltac decode_step P :=
  match goal with
  | H : forall q, register_begin P q = _
    |- context [register_begin P ?q] => rewrite (H q)
  | H : forall q, signin_begin P q = _
    |- context [signin_begin P ?q] => rewrite (H q)
  | |- context [coerceToArrayBuffer P ?v ?st] =>
      let H := fresh "Hdec" in
      let ws := fresh "ws" in
      let Hws := fresh "Hws" in
      pose proof (coerceToArrayBuffer_decode P v st) as H; revert H;
      destruct (decode_text v) eqn:?; intros H;
      [ rewrite H; clear H
      | destruct H as (? & ws & -> & Hws);
        apply warnings_project in Hws; destruct Hws as (? & ? & ? & ?) ]
  | |- context [transcode_descriptors P ?l ?st] =>
      let H := fresh "Hdec" in
      let ws := fresh "ws" in
      let Hws := fresh "Hws" in
      pose proof (transcode_descriptors_decode P l st) as H; revert H;
      destruct (decode_descriptors l) eqn:?; intros H;
      [ rewrite H; clear H
      | destruct H as (? & ws & -> & Hws);
        apply warnings_project in Hws; destruct Hws as (? & ? & ? & ?) ]
  end.

Ltac exec_decoding P :=
  norm; repeat (first [decode_step P | exec_step P]; norm).

Ltac enter_decoding P H :=
  repeat match goal with m : SigninMethod |- _ => destruct m end;
  unfold run, signinWithId, signinWithAlias, signin, register,
    signin_try, register_try, assertBrowserSupported;
  rewrite ?H; exec_decoding P.

(** Deciding the reference decoding of the options from the decodings of
    their fields. *)
Ltac decide_options :=
  unfold decode_creation_options, decode_request_options;
  repeat match goal with
  | H : decode_text ?v = _ |- context [decode_text ?v] => rewrite H
  | H : decode_descriptors ?l = _ |- context [decode_descriptors ?l] =>
      rewrite H
  end;
  cbv iota.

(** ** Registration end to end *)

(** C2: when every begin-register response carries the challenge
    ["AQID"], the options handed to [navigator.credentials.create] carry
    the bytes 1, 2, 3 as challenge, and a request to
    [/register/complete] carries, as [response.rawId], the base64url
    encoding of the raw id of the credential the platform returned for
    those options.  Both happen: on a supporting browser whose backend
    answers the begin request with options that decode, [create] is
    called once, with those options decoded; and when it resolves to a
    credential (its buffers hold bytes, its extension results can be
    serialized), the second and last request goes to
    [/register/complete] with that [rawId]. *)
Theorem register_transcodes_challenge_and_rawId (P : Platform) (cfg : Config)
    (token nick : jsstring) :
  (forall q resp r,
     register_begin P q = inr resp -> json resp = inr r ->
     co_challenge (rb_data r) = VString (lit "AQID")) ->
  (forall o cred,
     credentials_create P o = inr (Some cred) -> Forall is_byte (rawId cred)) ->
  let st := snd (run (register P token nick) (initial cfg)) in
  Forall (fun o => co_challenge o = VUint8Array [1; 2; 3])
    (creations (events st))
  /\ (forall q,
        q ∈ requests (events st) ->
        url q = apiUrl cfg ++ lit "/register/complete" ->
        exists o cred,
          creations (events st) = [o]
          /\ credentials_create P o = inr (Some cred)
          /\ get (get (body q) "response") "rawId"
             = VString (Base64.encode_url (rawId cred)))
  /\ (isBrowserSupported P = true ->
      forall r o,
        (forall q, register_begin P q = inr {| json := inr r |}) ->
        decode_creation_options (rb_data r) = Some o ->
        co_challenge o = VUint8Array [1; 2; 3]
        /\ creations (events st) = [o]
        /\ forall cred ext,
             credentials_create P o = inr (Some cred) ->
             wf_credential cred ->
             serialize (getClientExtensionResults cred) = inr ext ->
             exists q0 q,
               requests (events st) = [q0; q]
               /\ url q0 = apiUrl cfg ++ lit "/register/begin"
               /\ url q = apiUrl cfg ++ lit "/register/complete"
               /\ get (get (body q) "response") "rawId"
                  = VString (Base64.encode_url (rawId cred))).
Proof.
  intros Hchallenge Hraw. cbv zeta.
  destruct (isBrowserSupported P) eqn:Hs;
    [|unfold run, register, assertBrowserSupported, bind; rewrite Hs;
      simpl; split; [constructor|split; [inversion 1|discriminate]]].
  split; [|split].
  - unfold run, register, register_try, assertBrowserSupported.
    rewrite Hs. norm.
    exec_step P; norm;
      try (rewrite (Hchallenge _ _ _ ltac:(eassumption) eq_refl),
             coerceToArrayBuffer_AQID; norm);
      exec P; project.
    all: repeat constructor.
  - unfold run, register, register_try, assertBrowserSupported.
    rewrite Hs. norm.
    exec_step P; norm;
      try (rewrite (Hchallenge _ _ _ ltac:(eassumption) eq_refl),
             coerceToArrayBuffer_AQID; norm);
      exec P; project.
    all: intros q Hq Hurl;
      repeat match goal with
      | H : q ∈ _ :: _ |- _ => apply elem_of_cons in H; destruct H as [->|H]
      | H : q ∈ [] |- _ => by apply elem_of_nil in H
      end;
      try (cbn [url] in Hurl; by apply begin_url_is_not_complete_url in Hurl).
    all: eexists _, _; split; [reflexivity|]; split; [eassumption|].
    all: cbn [body prop get lookup_field String.eqb Ascii.eqb Bool.eqb].
    all: match goal with
         | Hc : credentials_create _ _ = inr (Some ?c),
           Hr : Forall is_byte (rawId ?c) -> _ |- _ =>
             specialize (Hr (Hraw _ _ Hc)); inversion Hr; subst
         end.
    all: by rewrite base64ToBase64Url_encode_url by eauto.
  - intros _ r o Hbegin Hdec.
    pose proof (Hchallenge any_request _ r (Hbegin any_request) eq_refl)
      as Hch.
    unfold decode_creation_options in Hdec. rewrite Hch in Hdec.
    change (decode_text (VString (lit "AQID"))) with (Some [1; 2; 3]) in Hdec.
    destruct (decode_text (co_user_id (rb_data r))) as [u|] eqn:Hu;
      [|discriminate Hdec].
    destruct (decode_descriptors (co_excludeCredentials (rb_data r)))
      as [l|] eqn:Hl; [|discriminate Hdec].
    inversion Hdec as [Ho]. split; [reflexivity|].
    rewrite Ho.
    destruct (run (register P token nick) (initial cfg)) as [res st] eqn:Hrun.
    cbn [snd]. set (G := _ /\ _). revert Hrun.
    unfold run, register, register_try, assertBrowserSupported.
    rewrite Hs. norm. rewrite Hbegin. norm.
    rewrite Hch, coerceToArrayBuffer_AQID. norm.
    match goal with
    | |- context [coerceToArrayBuffer P ?v ?st0] =>
        pose proof (coerceToArrayBuffer_decode P v st0) as Eu
    end.
    rewrite Hu in Eu. rewrite Eu. norm.
    match goal with
    | |- context [transcode_descriptors P ?v ?st0] =>
        pose proof (transcode_descriptors_decode P v st0) as El
    end.
    rewrite Hl in El. rewrite El. norm.
    rewrite Ho.
    destruct (credentials_create P o) as [e|[c|]] eqn:Hc; norm;
      try (intros Hrun; inversion Hrun; subst res st; subst G;
           split; [by project|]; intros ? ? Hc2; discriminate Hc2).
    exec P; intros Hrun; inversion Hrun; subst res st; subst G;
      (split; [by project|]); intros cred ext Hc2 Hwf Hext;
      inversion Hc2; subst cred; clear Hc2.
    all: clear Eu El;
      destruct (wf_credential_buffers c Hwf) as (Hb1 & Hb2 & Hb3 & _).
    all: repeat match goal with
         | Hr : Forall is_byte ?b -> _ = inr _, Hb : Forall is_byte ?b |- _ =>
             specialize (Hr Hb);
             first [discriminate Hr | inversion Hr; subst; clear Hr]
         end.
    all: try congruence.
    all: project; eexists _, _; split; [reflexivity|]; split; [reflexivity|];
           split; [reflexivity|].
    all: cbn [body prop get lookup_field String.eqb Ascii.eqb Bool.eqb].
    all: by rewrite base64ToBase64Url_encode_url.
Qed.

Lemma register_transcodes_challenge_and_rawId_witness :
  let st := snd (run (register example_platform (lit "token") (lit "laptop"))
                   (initial example_config)) in
  isBrowserSupported example_platform = true
  /\ creations (events st)
     = [{| co_challenge := VUint8Array [1; 2; 3];
           co_user_id := VUint8Array [117; 49];
           co_excludeCredentials :=
             Some [{| cred_id := VUint8Array [251; 255];
                      cred_other := VNull |}];
           co_other := VNull |}]
  /\ exists q0 q,
       requests (events st) = [q0; q]
       /\ url q0 = apiUrl example_config ++ lit "/register/begin"
       /\ url q = apiUrl example_config ++ lit "/register/complete"
       /\ get (get (body q) "response") "rawId" = VString (lit "CQgH_w").
Proof.
  cbv zeta. split; [reflexivity|].
  assert (forall q resp r,
            register_begin example_platform q = inr resp ->
            json resp = inr r ->
            co_challenge (rb_data r) = VString (lit "AQID")) as Hchallenge.
  { intros q resp r Hq Hr. simpl in Hq. inversion Hq; subst.
    simpl in Hr. inversion Hr; subst. reflexivity. }
  assert (forall o cred,
            credentials_create example_platform o = inr (Some cred) ->
            Forall is_byte (rawId cred)) as Hraw.
  { intros o cred Hc. simpl in Hc. inversion Hc; subst.
    repeat constructor; unfold is_byte; lia. }
  destruct (register_transcodes_challenge_and_rawId example_platform
              example_config (lit "token") (lit "laptop") Hchallenge Hraw)
    as (_ & _ & Hsent).
  destruct (Hsent eq_refl
              {| rb_sessionId := lit "session-1";
                 rb_data := example_creation_options |}
              _ (fun _ => eq_refl) eq_refl)
    as (_ & Hcreated & Hcomplete).
  split; [exact Hcreated|].
  apply (Hcomplete example_attestation (Some (VObject [])) eq_refl);
    [|reflexivity].
  repeat split; repeat constructor; unfold is_byte; lia.
Defined.

(** ** What the platform is asked *)

(** X12: [register] hands [navigator.credentials.create] the options of
    the begin response with the challenge, the user id and the id of
    every excluded credential decoded to bytes, everything else as it
    came, and it does so once.  When one of those fields does not decode
    (it is no string, or no base64), [create] is not called at all, only
    the begin request has been sent, and [register] fails. *)
Theorem register_hands_over_decoded_options (P : Platform) (cfg : Config)
    (token nick : jsstring) (r : RegisterBeginResponse) :
  isBrowserSupported P = true ->
  (forall q, register_begin P q = inr {| json := inr r |}) ->
  let out := run (register P token nick) (initial cfg) in
  match decode_creation_options (rb_data r) with
  | Some o => creations (events (snd out)) = [o]
  | None =>
      creations (events (snd out)) = []
      /\ map url (requests (events (snd out)))
         = [apiUrl cfg ++ lit "/register/begin"]
      /\ exists e, fst out = inl e
  end.
Proof.
  intros H Hbegin. cbv zeta.
  enter_decoding P H; decide_options; project;
    first [reflexivity | by eauto].
Qed.

Lemma register_hands_over_decoded_options_witness :
  isBrowserSupported example_platform = true
  /\ creations
       (events (snd (run (register example_platform (lit "token")
                            (lit "laptop")) (initial example_config))))
     = [{| co_challenge := VUint8Array [1; 2; 3];
           co_user_id := VUint8Array [117; 49];
           co_excludeCredentials :=
             Some [{| cred_id := VUint8Array [251; 255];
                      cred_other := VNull |}];
           co_other := VNull |}].
Proof.
  split; [reflexivity|].
  exact (register_hands_over_decoded_options example_platform example_config
           (lit "token") (lit "laptop")
           {| rb_sessionId := lit "session-1";
              rb_data := example_creation_options |}
           eq_refl (fun _ => eq_refl)).
Defined.

(** X13: [signin] hands [navigator.credentials.get] the options of the
    begin response with the challenge and the id of every allowed
    credential decoded to bytes, once; when one of them does not decode,
    [get] is not called, only the begin request has been sent, and
    [signin] fails. *)
Theorem signin_hands_over_decoded_options (P : Platform) (cfg : Config)
    (m : SigninMethod) (r : SigninBeginResponse) :
  isBrowserSupported P = true ->
  (forall q, signin_begin P q = inr {| json := inr r |}) ->
  let out := run (signin P m) (initial cfg) in
  match decode_request_options (sb_data r) with
  | Some o => assertions (events (snd out)) = [o]
  | None =>
      assertions (events (snd out)) = []
      /\ map url (requests (events (snd out)))
         = [apiUrl cfg ++ lit "/signin/begin"]
      /\ exists e, fst out = inl e
  end.
Proof.
  intros H Hbegin. cbv zeta.
  enter_decoding P H; decide_options; project;
    first [reflexivity | by eauto].
Qed.

Lemma signin_hands_over_decoded_options_witness :
  isBrowserSupported example_platform = true
  /\ assertions
       (events (snd (run (signin example_platform (ByAlias (lit "alice")))
                       (initial example_config))))
     = [{| ro_challenge := VUint8Array [1; 2; 3];
           ro_allowCredentials :=
             Some [{| cred_id := VUint8Array [9; 8; 7; 255];
                      cred_other := VNull |}];
           ro_other := VNull |}].
Proof.
  split; [reflexivity|].
  exact (signin_hands_over_decoded_options example_platform example_config
           (ByAlias (lit "alice"))
           {| sb_sessionId := lit "session-2";
              sb_data := example_request_options |}
           eq_refl (fun _ => eq_refl)).
Defined.

(** ** What is sent to the backend *)

(** X14: every request of a ceremony is a POST whose headers are the API
    key of the configuration, as [ApiKey], and the JSON content type,
    nothing else. *)
Theorem requests_carry_key_and_content_type (P : Platform) (cfg : Config)
    (token nick : jsstring) (m : SigninMethod) :
  let posted q :=
    method q = lit "POST"
    /\ headers q = [header "ApiKey" (apiKey cfg);
                    header "Content-Type" (lit "application/json")] in
  Forall posted
    (requests (events (snd (run (register P token nick) (initial cfg)))))
  /\ Forall posted
       (requests (events (snd (run (signin P m) (initial cfg))))).
Proof.
  cbv zeta. destruct (isBrowserSupported P) eqn:Hs.
  - split; enter P Hs; project; repeat constructor.
  - unfold run, signin, register, assertBrowserSupported, bind.
    rewrite Hs. simpl. split; constructor.
Qed.

(** X15: the first thing [register] does on a supporting browser is to
    post the token, with the relying-party id and the origin of the
    configuration, to [/register/begin] under the configured backend
    URL. *)
Theorem register_begins_with_token (P : Platform) (cfg : Config)
    (token nick : jsstring) :
  isBrowserSupported P = true ->
  exists q rest,
    events (snd (run (register P token nick) (initial cfg)))
      = Fetch q :: rest
    /\ url q = apiUrl cfg ++ lit "/register/begin"
    /\ body q = VObject [prop "token" (VString token);
                         prop "RPID" (VString (rpid cfg));
                         prop "Origin" (VString (origin cfg))].
Proof.
  intros H. enter P H; rewrite <- ?app_assoc; cbn [app]; eexists _, _;
    (split; [reflexivity|split; reflexivity]).
Qed.

Lemma register_begins_with_token_witness :
  isBrowserSupported example_platform = true
  /\ exists q rest,
       events (snd (run (register example_platform (lit "token")
                           (lit "laptop")) (initial example_config)))
         = Fetch q :: rest
       /\ url q = apiUrl example_config ++ lit "/register/begin"
       /\ body q = VObject [prop "token" (VString (lit "token"));
                            prop "RPID" (VString (rpid example_config));
                            prop "Origin" (VString (origin example_config))].
Proof.
  split; [reflexivity|].
  exact (register_begins_with_token example_platform example_config
           (lit "token") (lit "laptop") eq_refl).
Defined.

(** X16: when [register] sends a second request, it goes to
    [/register/complete] and its body is the text of: the session id of
    the begin response; the credential the platform returned, with [id]
    and [type] as they are, [rawId], the attestation object and the
    client data as base64url, and the extension results as
    [JSON.stringify] writes them (binary data in them is written as an
    empty object, and the property is left out when they are written as
    nothing); the nickname; the relying-party id and the origin. *)
Theorem register_complete_body (P : Platform) (cfg : Config)
    (token nick : jsstring) (q0 q : Request) :
  (forall o c, credentials_create P o = inr (Some c) -> wf_credential c) ->
  requests (events (snd (run (register P token nick) (initial cfg))))
    = [q0; q] ->
  exists r o c ext,
    register_begin P q0 = inr {| json := inr r |}
    /\ credentials_create P o = inr (Some c)
    /\ serialize (getClientExtensionResults c) = inr ext
    /\ url q = apiUrl cfg ++ lit "/register/complete"
    /\ body q = VObject [
         prop "sessionId" (VString (rb_sessionId r));
         prop "response" (VObject (
           [prop "id" (VString (id c));
            prop "rawId" (VString (Base64.encode_url (rawId c)));
            prop "type" (VString (type c))]
           ++ written "extensions" ext
           ++ [prop "response" (VObject [
                 prop "AttestationObject"
                   (VString (Base64.encode_url
                      (Uint8Array_of_buffer
                         (attestationObject (response c)))));
                 prop "clientDataJson"
                   (VString (Base64.encode_url
                      (Uint8Array_of_buffer
                         (clientDataJSON (response c)))))])]));
         prop "nickname" (VString nick);
         prop "RPID" (VString (rpid cfg));
         prop "Origin" (VString (origin cfg))].
Proof.
  intros Hwf.
  destruct (isBrowserSupported P) eqn:Hs;
    [|unfold run, register, assertBrowserSupported, bind; rewrite Hs;
      simpl; discriminate].
  set (G := ex _).
  enter P Hs; project; intros Hq; try discriminate Hq.
  all: subst G; inversion Hq; subst; clear Hq.
  all: match goal with
       | Hc : credentials_create _ _ = inr (Some ?c) |- _ =>
           destruct (wf_credential_buffers c (Hwf _ _ Hc))
             as (Hb1 & Hb2 & Hb3 & _)
       end.
  all: repeat match goal with
       | Hr : Forall is_byte ?b -> inr _ = inr _, Hb : Forall is_byte ?b |- _ =>
           specialize (Hr Hb); inversion Hr; subst; clear Hr
       end.
  all: rewrite !base64ToBase64Url_encode_url by done.
  all: eexists _, _, _, _; split; [eassumption|]; split; [eassumption|];
         split; [eassumption|]; split; reflexivity.
Qed.

Lemma register_complete_body_witness :
  exists q0 q,
    requests (events (snd (run (register prf_platform (lit "token")
                                  (lit "laptop")) (initial example_config))))
      = [q0; q]
    /\ get (get (get (body q) "response") "response") "AttestationObject"
       = VString (lit "owD_")
    /\ get (get (body q) "response") "extensions"
       = VObject [prop "prf" (VObject [prop "results" (VObject [
           prop "first" (VObject [])])])]
    /\ get (body q) "sessionId" = VString (lit "session-1")
    /\ get (body q) "nickname" = VString (lit "laptop").
Proof.
  destruct (requests (events (snd (run (register prf_platform
                                          (lit "token") (lit "laptop"))
                                     (initial example_config)))))
    as [|q0 [|q [|q1 rest]]] eqn:E;
    try (vm_compute in E; discriminate E).
  exists q0, q. split; [reflexivity|].
  destruct (register_complete_body prf_platform example_config
              (lit "token") (lit "laptop") q0 q)
    as (r & o & c & ext & Hr & Hc & Hext & _ & Hb).
  - intros o c Hc. inversion Hc; subst.
    repeat split; repeat constructor; unfold is_byte; lia.
  - exact E.
  - rewrite Hb. simpl in Hr, Hc. inversion Hr; subst. inversion Hc; subst.
    vm_compute in Hext. inversion Hext; subst.
    repeat split; reflexivity.
Defined.

(** X17: when [signin] sends a second request, it goes to
    [/signin/complete] and its body is the text of: the session id of
    the begin response; the credential the platform returned, with [id]
    and [type] as they are, [rawId], the authenticator data, the client
    data and the signature as base64url, and the extension results as
    [JSON.stringify] writes them (binary data in them is written as an
    empty object, and the property is left out when they are written as
    nothing); the relying-party id and the origin. *)
Theorem signin_complete_body (P : Platform) (cfg : Config)
    (m : SigninMethod) (q0 q : Request) :
  (forall o c, credentials_get P o = inr (Some c) -> wf_credential c) ->
  requests (events (snd (run (signin P m) (initial cfg)))) = [q0; q] ->
  exists r o c ext,
    signin_begin P q0 = inr {| json := inr r |}
    /\ credentials_get P o = inr (Some c)
    /\ serialize (getClientExtensionResults c) = inr ext
    /\ url q = apiUrl cfg ++ lit "/signin/complete"
    /\ body q = VObject [
         prop "sessionId" (VString (sb_sessionId r));
         prop "response" (VObject (
           [prop "id" (VString (id c));
            prop "rawId" (VString (Base64.encode_url (rawId c)));
            prop "type" (VString (type c))]
           ++ written "extensions" ext
           ++ [prop "response" (VObject [
                 prop "authenticatorData"
                   (VString (Base64.encode_url
                      (Uint8Array_of_buffer
                         (authenticatorData (response c)))));
                 prop "clientDataJson"
                   (VString (Base64.encode_url
                      (Uint8Array_of_buffer
                         (clientDataJSON (response c)))));
                 prop "signature"
                   (VString (Base64.encode_url
                      (Uint8Array_of_buffer
                         (signature (response c)))))])]));
         prop "RPID" (VString (rpid cfg));
         prop "Origin" (VString (origin cfg))].
Proof.
  intros Hwf.
  destruct (isBrowserSupported P) eqn:Hs;
    [|unfold run, signin, assertBrowserSupported, bind; rewrite Hs;
      simpl; discriminate].
  set (G := ex _).
  enter P Hs; project; intros Hq; try discriminate Hq.
  all: subst G; inversion Hq; subst; clear Hq.
  all: match goal with
       | Hc : credentials_get _ _ = inr (Some ?c) |- _ =>
           destruct (wf_credential_buffers c (Hwf _ _ Hc))
             as (Hb1 & Hb2 & _ & Hb4 & Hb5)
       end.
  all: repeat match goal with
       | Hr : Forall is_byte ?b -> inr _ = inr _, Hb : Forall is_byte ?b |- _ =>
           specialize (Hr Hb); inversion Hr; subst; clear Hr
       end.
  all: rewrite !base64ToBase64Url_encode_url by done.
  all: eexists _, _, _, _; split; [eassumption|]; split; [eassumption|];
         split; [eassumption|]; split; reflexivity.
Qed.

Lemma signin_complete_body_witness :
  exists q0 q,
    requests (events (snd (run (signin prf_platform (ByUserId (lit "u1")))
                             (initial example_config))))
      = [q0; q]
    /\ get (get (get (body q) "response") "response") "signature"
       = VString (lit "MEUCIQ")
    /\ get (get (body q) "response") "extensions"
       = VObject [prop "prf" (VObject [prop "results" (VObject [
           prop "first" (VObject [])])])]
    /\ get (body q) "sessionId" = VString (lit "session-2").
Proof.
  destruct (requests (events (snd (run (signin prf_platform
                                          (ByUserId (lit "u1")))
                                     (initial example_config)))))
    as [|q0 [|q [|q1 rest]]] eqn:E;
    try (vm_compute in E; discriminate E).
  exists q0, q. split; [reflexivity|].
  destruct (signin_complete_body prf_platform example_config
              (ByUserId (lit "u1")) q0 q)
    as (r & o & c & ext & Hr & Hc & Hext & _ & Hb).
  - intros o c Hc. inversion Hc; subst.
    repeat split; repeat constructor; unfold is_byte; lia.
  - exact E.
  - rewrite Hb. simpl in Hr, Hc. inversion Hr; subst. inversion Hc; subst.
    vm_compute in Hext. inversion Hext; subst.
    repeat split; reflexivity.
Defined.

(** X18: when [signin] succeeds, the value it resolves to is the [data]
    of the parsed answer to the complete request, which was the second
    and last request. *)
Theorem signin_returns_backend_data (P : Platform) (cfg : Config)
    (m : SigninMethod) (v : jsstring) :
  fst (run (signin P m) (initial cfg)) = inr v ->
  exists q0 q r,
    requests (events (snd (run (signin P m) (initial cfg)))) = [q0; q]
    /\ url q = apiUrl cfg ++ lit "/signin/complete"
    /\ signin_complete P q = inr {| json := inr r |}
    /\ v = sc_data r.
Proof.
  destruct (isBrowserSupported P) eqn:Hs;
    [|unfold run, signin, assertBrowserSupported, bind; rewrite Hs;
      simpl; discriminate].
  enter P Hs; intros Hv; try discriminate Hv.
  all: inversion Hv; subst; project; eexists _, _, _.
  all: split; [reflexivity|]; split; [reflexivity|]; split; [eassumption|].
  all: reflexivity.
Qed.

Lemma signin_returns_backend_data_witness :
  fst (run (signin example_platform (ByUserId (lit "u1")))
         (initial example_config)) = inr (lit "verify_token")
  /\ exists q0 q r,
       requests (events (snd (run (signin example_platform
                                     (ByUserId (lit "u1")))
                                (initial example_config)))) = [q0; q]
       /\ url q = apiUrl example_config ++ lit "/signin/complete"
       /\ signin_complete example_platform q = inr {| json := inr r |}
       /\ lit "verify_token" = sc_data r.
Proof.
  split; [reflexivity|].
  exact (signin_returns_backend_data example_platform example_config
           (ByUserId (lit "u1")) (lit "verify_token") eq_refl).
Defined.

(** ** The order of the calls *)

(** X19: when [register] has sent two requests, its calls were, in this
    order: the begin request, one call of [create], which resolved to a
    credential, and the complete request; after them at most one error
    was written to the console.  No warning and no other call lies in
    between. *)
Theorem register_call_order (P : Platform) (cfg : Config)
    (token nick : jsstring) (q0 q : Request) :
  requests (events (snd (run (register P token nick) (initial cfg))))
    = [q0; q] ->
  exists o c tail,
    events (snd (run (register P token nick) (initial cfg)))
      = [Fetch q0; CredentialsCreate o; Fetch q] ++ tail
    /\ credentials_create P o = inr (Some c)
    /\ (tail = [] \/ exists e, tail = [ConsoleError e]).
Proof.
  destruct (isBrowserSupported P) eqn:Hs;
    [|unfold run, register, assertBrowserSupported, bind; rewrite Hs;
      simpl; discriminate].
  unfold run.
  destruct (register P token nick (initial cfg)) as [res st] eqn:Hrun. cbn [snd].
  revert Hrun.
  enter_decoding P Hs; intros Hrun; inversion Hrun; subst; clear Hrun;
    cbn [events]; repeat progress project; intros Hq; try discriminate Hq.
  all: inversion Hq; subst; clear Hq.
  all: rewrite <- ?app_assoc; cbn [app].
  all: eexists _, _, _; split; [reflexivity|]; split; [eassumption|].
  all: first [by left | right; by eexists].
Qed.

Lemma register_call_order_witness :
  exists q0 q o,
    events (snd (run (register example_platform (lit "token") (lit "laptop"))
                   (initial example_config)))
      = [Fetch q0; CredentialsCreate o; Fetch q].
Proof.
  destruct (requests (events (snd (run (register example_platform
                                          (lit "token") (lit "laptop"))
                                     (initial example_config)))))
    as [|q0 [|q [|q1 rest]]] eqn:E;
    try (vm_compute in E; discriminate E).
  destruct (register_call_order example_platform example_config
              (lit "token") (lit "laptop") q0 q E)
    as (o & c & tail & Hev & _ & _).
  exists q0, q, o. rewrite Hev.
  assert (length (events (snd (run (register example_platform (lit "token")
                                      (lit "laptop"))
                                 (initial example_config)))) = 3%nat)
    as Hlen by reflexivity.
  rewrite Hev in Hlen. destruct tail; [reflexivity|discriminate Hlen].
Defined.

(** X20: when [signin] has sent two requests, its calls were, in this
    order: the begin request, one call of [get], which resolved to a
    credential, and the complete request; after them at most one error
    was written to the console. *)
Theorem signin_call_order (P : Platform) (cfg : Config) (m : SigninMethod)
    (q0 q : Request) :
  requests (events (snd (run (signin P m) (initial cfg)))) = [q0; q] ->
  exists o c tail,
    events (snd (run (signin P m) (initial cfg)))
      = [Fetch q0; CredentialsGet o; Fetch q] ++ tail
    /\ credentials_get P o = inr (Some c)
    /\ (tail = [] \/ exists e, tail = [ConsoleError e]).
Proof.
  destruct (isBrowserSupported P) eqn:Hs;
    [|unfold run, signin, assertBrowserSupported, bind; rewrite Hs;
      simpl; discriminate].
  unfold run.
  destruct (signin P m (initial cfg)) as [res st] eqn:Hrun. cbn [snd].
  revert Hrun.
  enter_decoding P Hs; intros Hrun; inversion Hrun; subst; clear Hrun;
    cbn [events]; repeat progress project; intros Hq; try discriminate Hq.
  all: inversion Hq; subst; clear Hq.
  all: rewrite <- ?app_assoc; cbn [app].
  all: eexists _, _, _; split; [reflexivity|]; split; [eassumption|].
  all: first [by left | right; by eexists].
Qed.

Lemma signin_call_order_witness :
  exists q0 q o,
    events (snd (run (signin example_platform (ByAlias (lit "alice")))
                   (initial example_config)))
      = [Fetch q0; CredentialsGet o; Fetch q].
Proof.
  destruct (requests (events (snd (run (signin example_platform
                                          (ByAlias (lit "alice")))
                                     (initial example_config)))))
    as [|q0 [|q [|q1 rest]]] eqn:E;
    try (vm_compute in E; discriminate E).
  destruct (signin_call_order example_platform example_config
              (ByAlias (lit "alice")) q0 q E)
    as (o & c & tail & Hev & _ & _).
  exists q0, q, o. rewrite Hev.
  assert (length (events (snd (run (signin example_platform
                                      (ByAlias (lit "alice")))
                                 (initial example_config)))) = 3%nat)
    as Hlen by reflexivity.
  rewrite Hev in Hlen. destruct tail; [reflexivity|discriminate Hlen].
Defined.

(** X21: a ceremony keeps to its own calls: [register] never calls
    [navigator.credentials.get] and sends at most two requests, [signin]
    never calls [navigator.credentials.create] and sends at most two
    requests, and neither calls the platform more than once. *)
Theorem ceremonies_keep_to_their_calls (P : Platform) (cfg : Config)
    (token nick : jsstring) (m : SigninMethod) :
  (let evs := events (snd (run (register P token nick) (initial cfg))) in
   assertions evs = []
   /\ (length (creations evs) <= 1)%nat
   /\ (length (requests evs) <= 2)%nat)
  /\ (let evs := events (snd (run (signin P m) (initial cfg))) in
      creations evs = []
      /\ (length (assertions evs) <= 1)%nat
      /\ (length (requests evs) <= 2)%nat).
Proof.
  cbv zeta. destruct (isBrowserSupported P) eqn:Hs.
  - split; enter P Hs; project;
      (split; [reflexivity|]; split; cbn [length]; lia).
  - unfold run, signin, register, assertBrowserSupported, bind.
    rewrite Hs. simpl. repeat split; lia.
Qed.

(** ** Failures before the platform call *)

(** X22: when the begin request of a registration is rejected (the
    network is down), the ceremony ends there: the rejected request and
    the console write of its error are the only calls, the platform is
    never asked, and the caller gets the error of [register] with the
    message of the rejection.  Nothing is assumed of the sign-in
    endpoints. *)
Theorem register_begin_rejection_ends_ceremony (P : Platform) (cfg : Config)
    (token nick : jsstring) (e : JsError) :
  isBrowserSupported P = true ->
  (forall q, register_begin P q = inl e) ->
  exists q,
    url q = apiUrl cfg ++ lit "/register/begin"
    /\ run (register P token nick) (initial cfg)
       = (inl (Error (lit "Passwordless register failed: " ++ message e)),
          log (initial cfg) [Fetch q; ConsoleError e]).
Proof.
  intros H Hr.
  enter_decoding P H; eexists; (split; [|reflexivity]); reflexivity.
Qed.

Lemma register_begin_rejection_ends_ceremony_witness :
  isBrowserSupported register_offline_platform = true
  /\ exists q,
       url q = apiUrl example_config ++ lit "/register/begin"
       /\ run (register register_offline_platform (lit "token")
                 (lit "laptop")) (initial example_config)
          = (inl (Error (lit "Passwordless register failed: "
                         ++ lit "Failed to fetch")),
             log (initial example_config)
               [Fetch q; ConsoleError (TypeError (lit "Failed to fetch"))]).
Proof.
  split; [reflexivity|].
  exact (register_begin_rejection_ends_ceremony register_offline_platform
           example_config (lit "token") (lit "laptop")
           (TypeError (lit "Failed to fetch")) eq_refl (fun _ => eq_refl)).
Defined.

(** X23: when the begin request of a sign-in is rejected, the ceremony
    ends there in the same way: the rejected request and the console
    write of its error are the only calls, the platform is never asked,
    and the caller gets the error of [signin] with the message of the
    rejection.  Nothing is assumed of the registration endpoints. *)
Theorem signin_begin_rejection_ends_ceremony (P : Platform) (cfg : Config)
    (m : SigninMethod) (e : JsError) :
  isBrowserSupported P = true ->
  (forall q, signin_begin P q = inl e) ->
  exists q,
    url q = apiUrl cfg ++ lit "/signin/begin"
    /\ run (signin P m) (initial cfg)
       = (inl (Error (lit "Passwordless signin failed: " ++ message e)),
          log (initial cfg) [Fetch q; ConsoleError e]).
Proof.
  intros H Hs.
  enter_decoding P H; eexists; (split; [|reflexivity]); reflexivity.
Qed.

Lemma signin_begin_rejection_ends_ceremony_witness :
  isBrowserSupported signin_offline_platform = true
  /\ exists q,
       url q = apiUrl example_config ++ lit "/signin/begin"
       /\ run (signin signin_offline_platform (ByUserId (lit "u1")))
            (initial example_config)
          = (inl (Error (lit "Passwordless signin failed: "
                         ++ lit "Failed to fetch")),
             log (initial example_config)
               [Fetch q; ConsoleError (TypeError (lit "Failed to fetch"))]).
Proof.
  split; [reflexivity|].
  exact (signin_begin_rejection_ends_ceremony signin_offline_platform
           example_config (ByUserId (lit "u1"))
           (TypeError (lit "Failed to fetch")) eq_refl (fun _ => eq_refl)).
Defined.

(** ** Failures of the platform call *)

(** X26: when [navigator.credentials.create] is rejected (the user
    dismisses the prompt, the call times out), [register] sends no
    complete request: the begin request stays the only one, the
    rejection is the one error logged, and the caller gets the error of
    [register] with the message of the rejection.  Nothing is assumed of
    [navigator.credentials.get]. *)
Theorem create_rejection_ends_ceremony (P : Platform) (cfg : Config)
    (token nick : jsstring) (e : JsError) :
  isBrowserSupported P = true ->
  (forall o, credentials_create P o = inl e) ->
  let reg := run (register P token nick) (initial cfg) in
  creations (events (snd reg)) <> [] ->
  fst reg = inl (Error (lit "Passwordless register failed: " ++ message e))
  /\ logged_errors (events (snd reg)) = [e]
  /\ map url (requests (events (snd reg)))
     = [apiUrl cfg ++ lit "/register/begin"].
Proof.
  intros H Hcreate. cbv zeta.
  enter P H; project; intros Hne; first [done | by repeat split].
Qed.

Lemma create_rejection_ends_ceremony_witness :
  isBrowserSupported create_refusing_platform = true
  /\ creations (events (snd (run (register create_refusing_platform
                                    (lit "token") (lit "laptop"))
                               (initial example_config)))) <> []
  /\ fst (run (register create_refusing_platform (lit "token")
                 (lit "laptop")) (initial example_config))
     = inl (Error (lit "Passwordless register failed: "
                   ++ lit "The operation either timed out or was not allowed."))
  /\ map url (requests (events (snd (run (register create_refusing_platform
                                            (lit "token") (lit "laptop"))
                                       (initial example_config)))))
     = [apiUrl example_config ++ lit "/register/begin"].
Proof.
  split; [reflexivity|].
  assert (creations (events (snd (run (register create_refusing_platform
                                         (lit "token") (lit "laptop"))
                                    (initial example_config)))) <> [])
    as Hne by discriminate.
  split; [exact Hne|].
  destruct (create_rejection_ends_ceremony create_refusing_platform
              example_config (lit "token") (lit "laptop") not_allowed
              eq_refl (fun _ => eq_refl) Hne)
    as (Hres & _ & Hreq).
  split; [exact Hres|exact Hreq].
Defined.

(** X27: when [navigator.credentials.get] is rejected, [signin] sends
    no complete request: the begin request stays the only one, the
    rejection is the one error logged, and the caller gets the error of
    [signin] with the message of the rejection.  Nothing is assumed of
    [navigator.credentials.create]. *)
Theorem get_rejection_ends_ceremony (P : Platform) (cfg : Config)
    (m : SigninMethod) (e : JsError) :
  isBrowserSupported P = true ->
  (forall o, credentials_get P o = inl e) ->
  let sgn := run (signin P m) (initial cfg) in
  assertions (events (snd sgn)) <> [] ->
  fst sgn = inl (Error (lit "Passwordless signin failed: " ++ message e))
  /\ logged_errors (events (snd sgn)) = [e]
  /\ map url (requests (events (snd sgn)))
     = [apiUrl cfg ++ lit "/signin/begin"].
Proof.
  intros H Hget. cbv zeta.
  enter P H; project; intros Hne; first [done | by repeat split].
Qed.

Lemma get_rejection_ends_ceremony_witness :
  isBrowserSupported get_refusing_platform = true
  /\ assertions (events (snd (run (signin get_refusing_platform
                                     (ByAlias (lit "alice")))
                                (initial example_config)))) <> []
  /\ fst (run (signin get_refusing_platform (ByAlias (lit "alice")))
            (initial example_config))
     = inl (Error (lit "Passwordless signin failed: "
                   ++ lit "The operation either timed out or was not allowed."))
  /\ map url (requests (events (snd (run (signin get_refusing_platform
                                            (ByAlias (lit "alice")))
                                       (initial example_config)))))
     = [apiUrl example_config ++ lit "/signin/begin"].
Proof.
  split; [reflexivity|].
  assert (assertions (events (snd (run (signin get_refusing_platform
                                          (ByAlias (lit "alice")))
                                     (initial example_config)))) <> [])
    as Hne by discriminate.
  split; [exact Hne|].
  destruct (get_rejection_ends_ceremony get_refusing_platform
              example_config (ByAlias (lit "alice")) not_allowed
              eq_refl (fun _ => eq_refl) Hne)
    as (Hres & _ & Hreq).
  split; [exact Hres|exact Hreq].
Defined.

(** ** The exported checks and the constructor *)



(** X25: a client constructed from an argument sends its first request
    to the backend URL of the argument, or to
    [https://v3.passwordless.dev] when the argument has none, with the
    API key of the argument, and with the relying-party id and the
    origin of the argument or, when it has none, the host name and the
    origin of [window.location]. *)
Theorem constructed_client_addresses_backend (P : Platform) (w : Location)
    (c : ConfigArgument) (token nick : jsstring) :
  isBrowserSupported P = true ->
  exists q rest,
    events (snd (run (register P token nick) (Client_constructor w c)))
      = Fetch q :: rest
    /\ url q = default (lit "https://v3.passwordless.dev") (arg_apiUrl c)
               ++ lit "/register/begin"
    /\ headers q = [header "ApiKey" (arg_apiKey c);
                    header "Content-Type" (lit "application/json")]
    /\ body q = VObject [
         prop "token" (VString token);
         prop "RPID" (VString (default (location_hostname w) (arg_rpid c)));
         prop "Origin" (VString (default (location_origin w) (arg_origin c)))].
Proof.
  intros H.
  change (Client_constructor w c)
    with (initial (Object_assign (default_config w) c)).
  enter P H; rewrite <- ?app_assoc; cbn [app]; eexists _, _;
    (split; [reflexivity|]; split; [reflexivity|]; split; reflexivity).
Qed.

Lemma constructed_client_addresses_backend_witness :
  isBrowserSupported example_platform = true
  /\ exists q rest,
       events (snd (run (register example_platform (lit "token")
                           (lit "laptop"))
                      (Client_constructor
                         {| location_origin := lit "https://shop.example";
                            location_hostname := lit "shop.example" |}
                         {| arg_apiUrl := None;
                            arg_apiKey := lit "demo:public:key";
                            arg_origin := None;
                            arg_rpid := Some (lit "example") |})))
         = Fetch q :: rest
       /\ url q = lit "https://v3.passwordless.dev/register/begin"
       /\ get (body q) "RPID" = VString (lit "example")
       /\ get (body q) "Origin" = VString (lit "https://shop.example").
Proof.
  split; [reflexivity|].
  destruct (constructed_client_addresses_backend example_platform
              {| location_origin := lit "https://shop.example";
                 location_hostname := lit "shop.example" |}
              {| arg_apiUrl := None;
                 arg_apiKey := lit "demo:public:key";
                 arg_origin := None;
                 arg_rpid := Some (lit "example") |}
              (lit "token") (lit "laptop") eq_refl)
    as (q & rest & Hev & Hurl & _ & Hbody).
  exists q, rest. split; [exact Hev|]. split; [exact Hurl|].
  rewrite Hbody. split; reflexivity.
Defined.
